(** * Currency-conversion bot: rate cache, feed parser, text extraction and
      currency resolution of [bot.py], embedded and verified.

    Conventions of the embedding.

    - A Python [str] is a list of Unicode code points ([list N]).  Literals are
      written [U "..."]: the UTF-8 bytes of the Rocq string are decoded once.
    - A Python [float] is an IEEE-754 binary64 value, [spec_float] with
      precision 53 and maximal exponent 1024, rounded to nearest-even.
    - A Python [int] is a [Z].
    - A Python [dict] is an association list in insertion order; assigning to
      an existing key keeps the key's position.
    - Exceptions are values of [exn]; a computation that may raise returns
      [result].
    - The module-level cache variables are the record [globals], threaded
      through [fetch_cbr_rates]; the clock, [datetime.now()] and the HTTP
      reply are the record [env].

    Limits of the embedding: case mapping covers Basic Latin and the Cyrillic
    block U+0400..U+045F (other code points are left as they are), and the
    numeric and date parsers read ASCII digits. *)

From Stdlib Require Import ZArith NArith List Bool String Ascii Lia.
From Stdlib Require Import Floats.SpecFloat.
Import ListNotations.

Set Implicit Arguments.
Local Open Scope N_scope.

(* ================================================================== *)
(** * Python strings *)

Module Py.

Definition str : Type := list N.

Definition str_eqb (a b : str) : bool :=
  if list_eq_dec N.eq_dec a b then true else false.

(** UTF-8 decoding, used for literals only. *)
Fixpoint utf8_decode (bs : list N) : str :=
  match bs with
  | [] => []
  | b0 :: r0 =>
    if b0 <? 128 then b0 :: utf8_decode r0
    else if b0 <? 224 then
      match r0 with
      | b1 :: r1 => ((b0 - 192) * 64 + (b1 - 128)) :: utf8_decode r1
      | [] => [b0]
      end
    else if b0 <? 240 then
      match r0 with
      | b1 :: b2 :: r2 =>
        ((b0 - 224) * 4096 + (b1 - 128) * 64 + (b2 - 128)) :: utf8_decode r2
      | _ => [b0]
      end
    else
      match r0 with
      | b1 :: b2 :: b3 :: r3 =>
        ((b0 - 240) * 262144 + (b1 - 128) * 4096 + (b2 - 128) * 64 + (b3 - 128))
          :: utf8_decode r3
      | _ => [b0]
      end
  end.

Definition U (s : string) : str :=
  utf8_decode (List.map N_of_ascii (list_ascii_of_string s)).

(** [str.isspace] on one code point: the Unicode white-space set CPython
    uses for [split()], [strip()], [int()] and [float()]. *)
Definition isspace (c : N) : bool :=
  ((9 <=? c) && (c <=? 13)) || ((28 <=? c) && (c <=? 32))
  || (c =? 133) || (c =? 160) || (c =? 5760)
  || ((8192 <=? c) && (c <=? 8202))
  || (c =? 8232) || (c =? 8233) || (c =? 8239) || (c =? 8287) || (c =? 12288).

Fixpoint lstrip (s : str) : str :=
  match s with
  | c :: s' => if isspace c then lstrip s' else s
  | [] => []
  end.

Definition rstrip (s : str) : str := rev (lstrip (rev s)).

Definition strip (s : str) : str := rstrip (lstrip s).

(** [str.lower] / [str.upper], code point by code point. *)
Definition lower_char (c : N) : N :=
  if (65 <=? c) && (c <=? 90) then c + 32            (* A-Z *)
  else if (1040 <=? c) && (c <=? 1071) then c + 32   (* U+0410..U+042F *)
  else if (1024 <=? c) && (c <=? 1039) then c + 80   (* U+0400..U+040F *)
  else c.

Definition upper_char (c : N) : N :=
  if (97 <=? c) && (c <=? 122) then c - 32           (* a-z *)
  else if (1072 <=? c) && (c <=? 1103) then c - 32   (* U+0430..U+044F *)
  else if (1104 <=? c) && (c <=? 1119) then c - 80   (* U+0450..U+045F *)
  else c.

Definition lower (s : str) : str := List.map lower_char s.
Definition upper (s : str) : str := List.map upper_char s.

(** [s.replace(old, new)] where [old] and [new] are single code points, the
    only form the program uses. *)
Definition replace (old new : N) (s : str) : str :=
  List.map (fun c => if c =? old then new else c) s.

(** [s.split()] with no argument: maximal runs of non-space code points. *)
Fixpoint split_from (cur : str) (s : str) : list str :=
  match s with
  | [] => match cur with [] => [] | _ => [rev cur] end
  | c :: s' =>
    if isspace c then
      match cur with
      | [] => split_from [] s'
      | _ => rev cur :: split_from [] s'
      end
    else split_from (c :: cur) s'
  end.

Definition split (s : str) : list str := split_from [] s.

(** [sep.join(parts)] *)
Fixpoint join (sep : str) (parts : list str) : str :=
  match parts with
  | [] => []
  | [p] => p
  | p :: ps => p ++ sep ++ join sep ps
  end.

(** [p in s] for strings: [p] occurs in [s] as a contiguous run. *)
Fixpoint startswith (s p : str) : bool :=
  match p, s with
  | [], _ => true
  | _ :: _, [] => false
  | a :: p', b :: s' => (a =? b) && startswith s' p'
  end.

Fixpoint contains (s p : str) : bool :=
  startswith s p ||
  match s with
  | [] => false
  | _ :: s' => contains s' p
  end.

(** Truthiness of a string: [if s:] *)
Definition truthy (s : str) : bool :=
  match s with [] => false | _ => true end.

(* ------------------------------------------------------------------ *)
(** ** Exceptions *)

Inductive exn : Type :=
| RequestException      (* requests.get: connection failure, timeout *)
| HTTPError             (* Response.raise_for_status *)
| ParseError            (* ET.fromstring *)
| ValueError
| ZeroDivisionError
| OverflowError.

Inductive result (A : Type) : Type :=
| Ok (a : A)
| Raise (e : exn).
Arguments Ok {A} a.
Arguments Raise {A} e.

Definition bind {A B} (r : result A) (k : A -> result B) : result B :=
  match r with
  | Ok a => k a
  | Raise e => Raise e
  end.

(* ------------------------------------------------------------------ *)
(** ** Dictionaries (insertion ordered) *)

Section Dict.
Variable V : Type.

Definition dict : Type := list (str * V).

Fixpoint dict_get (d : dict) (k : str) : option V :=
    match d with
    | [] => None
    | (k', v) :: d' => if str_eqb k k' then Some v else dict_get d' k
    end.

(** [k in d] *)
Definition dict_in (k : str) (d : dict) : bool :=
    match dict_get d k with Some _ => true | None => false end.

(** [d[k] = v]: an existing key keeps its place, a new one goes last. *)
Fixpoint dict_set (d : dict) (k : str) (v : V) : dict :=
    match d with
    | [] => [(k, v)]
    | (k', v') :: d' =>
      if str_eqb k k' then (k', v) :: d' else (k', v') :: dict_set d' k v
    end.

Definition keys (d : dict) : list str := List.map fst d.
End Dict.

(* ------------------------------------------------------------------ *)
(** ** Floats (binary64) *)

Definition float : Type := spec_float.

Definition prec : Z := 53.
Definition emax : Z := 1024.

Definition fadd : float -> float -> float := SFadd prec emax.
Definition fsub : float -> float -> float := SFsub prec emax.
Definition fmul : float -> float -> float := SFmul prec emax.
Definition flt : float -> float -> bool := SFltb.

Definition is_zero (x : float) : bool :=
  match x with S754_zero _ => true | _ => false end.

(** [x / y] on floats: a zero divisor raises. *)
Definition truediv (x y : float) : result float :=
  if is_zero y then Raise ZeroDivisionError else Ok (SFdiv prec emax x y).

(** The float nearest to an integer (ties to even); what [float(n)] and the
    implicit conversion of an [int] operand compute.  An integer whose
    nearest float would be infinite raises. *)
Definition float_of_Z (n : Z) : float := binary_normalize prec emax n 0 false.

Definition float_of_int (n : Z) : result float :=
  match float_of_Z n with
  | S754_infinity _ => Raise OverflowError
  | f => Ok f
  end.

(** [x / n] with [x] a float and [n] an int. *)
Definition truediv_int (x : float) (n : Z) : result float :=
  bind (float_of_int n) (fun y => truediv x y).

(** The float nearest to [n / d] for positive integers. *)
Definition float_of_ratio (neg : bool) (n d : positive) : float :=
  let '(q, e, l) := SFdiv_core_binary prec emax (Zpos n) 0 (Zpos d) 0 in
  binary_round_aux prec emax neg q e l.

(** The float nearest to [m * 10^e]. *)
Definition float_of_decimal (neg : bool) (m : Z) (e : Z) : float :=
  match m with
  | Zpos p =>
    match e with
    | Zneg k => float_of_ratio neg p (Pos.pow 10 k)
    | _ => binary_normalize prec emax
             (if neg then Z.opp (m * 10 ^ e) else m * 10 ^ e)%Z 0 false
    end
  | _ => S754_zero neg
  end.

Definition one : float := float_of_Z 1.

(* ------------------------------------------------------------------ *)
(** ** [int(s)] and [float(s)] *)

Definition is_digit (c : N) : bool := (48 <=? c) && (c <=? 57).

Definition digit_val (c : N) : Z := Z.of_N (c - 48).

(** After a first digit: [(["_"] digit)*].  Returns the digits read and the
    unread rest. *)
Fixpoint digits_tail (s : str) : list Z * str :=
  match s with
  | [] => ([], [])
  | c :: s' =>
    if is_digit c then
      let (ds, r) := digits_tail s' in (digit_val c :: ds, r)
    else if c =? 95 then
      match s' with
      | c' :: s'' =>
        if is_digit c' then
          let (ds, r) := digits_tail s'' in (digit_val c' :: ds, r)
        else ([], s)
      | [] => ([], s)
      end
    else ([], s)
  end.

(** [digitpart ::= digit (["_"] digit)*] *)
Definition digitpart (s : str) : option (list Z * str) :=
  match s with
  | c :: s' =>
    if is_digit c then
      let (ds, r) := digits_tail s' in Some (digit_val c :: ds, r)
    else None
  | [] => None
  end.

Definition Z_of_digits (ds : list Z) : Z :=
  fold_left (fun acc d => (acc * 10 + d)%Z) ds 0%Z.

(** Optional sign: [true] for a minus. *)
Definition sign (s : str) : bool * str :=
  match s with
  | 43 :: r => (false, r)
  | 45 :: r => (true, r)
  | _ => (false, s)
  end.

(** Longest decimal string [int()] converts (sys.int_info.default_max_str_digits). *)
Definition max_str_digits : nat := 4300.

(** [int(s)] for a string argument, base 10. *)
Definition int (s : str) : result Z :=
  let (neg, r) := sign (strip s) in
  match digitpart r with
  | Some (ds, []) =>
    if Nat.ltb max_str_digits (List.length ds) then Raise ValueError
    else Ok (if neg then Z.opp (Z_of_digits ds) else Z_of_digits ds)
  | _ => Raise ValueError
  end.

Definition ascii_lower (s : str) : str :=
  List.map (fun c => if (65 <=? c) && (c <=? 90) then c + 32 else c) s.

(** [exponent ::= ("e" | "E") ["+" | "-"] digitpart], absent when the string
    has ended. *)
Definition exponent (s : str) : option Z :=
  match s with
  | [] => Some 0%Z
  | c :: r =>
    if (c =? 101) || (c =? 69) then
      let (neg, r') := sign r in
      match digitpart r' with
      | Some (ds, []) => Some (if neg then Z.opp (Z_of_digits ds) else Z_of_digits ds)
      | _ => None
      end
    else None
  end.

(** [number ::= [digitpart] "." digitpart | digitpart ["."]]: the integer
    digits, the fraction digits and the unread rest. *)
Definition number (s : str) : option (list Z * list Z * str) :=
  match digitpart s with
  | Some (ip, 46 :: r) =>
    match digitpart r with
    | Some (fp, r') => Some (ip, fp, r')
    | None => Some (ip, [], r)
    end
  | Some (ip, r) => Some (ip, [], r)
  | None =>
    match s with
    | 46 :: r =>
      match digitpart r with
      | Some (fp, r') => Some ([], fp, r')
      | None => None
      end
    | _ => None
    end
  end.

(** [float(s)] for a string argument. *)
Definition float_of_str (s : str) : result float :=
  let (neg, r) := sign (strip s) in
  let w := ascii_lower r in
  if str_eqb w (U "inf") || str_eqb w (U "infinity") then Ok (S754_infinity neg)
  else if str_eqb w (U "nan") then Ok S754_nan
  else
    match number r with
    | Some (ip, fp, r') =>
      match exponent r' with
      | Some e =>
        Ok (float_of_decimal neg (Z_of_digits (ip ++ fp))
                             (e - Z.of_nat (List.length fp))%Z)
      | None => Raise ValueError
      end
    | None => Raise ValueError
    end.

(* ------------------------------------------------------------------ *)
(** ** [datetime] and [datetime.strptime(s, "%d.%m.%Y")] *)

Record datetime : Type := mkdatetime {
  year : Z; month : Z; day : Z;
  hour : Z; minute : Z; second : Z; microsecond : Z
}.

Definition between (lo hi c : N) : bool := (lo <=? c) && (c <=? hi).

(** [%d]: [3[0-1]|[1-2]\d|0[1-9]|[1-9]| [1-9]], alternatives in order. *)
Definition directive_d (s : str) : option (Z * str) :=
  match s with
  | a :: b :: r =>
    if (a =? 51) && between 48 49 b then Some (30 + digit_val b, r)%Z
    else if between 49 50 a && is_digit b then Some (10 * digit_val a + digit_val b, r)%Z
    else if (a =? 48) && between 49 57 b then Some (digit_val b, r)
    else if between 49 57 a then Some (digit_val a, b :: r)
    else if (a =? 32) && between 49 57 b then Some (digit_val b, r)
    else None
  | [a] => if between 49 57 a then Some (digit_val a, []) else None
  | [] => None
  end.

(** [%m]: [1[0-2]|0[1-9]|[1-9]] *)
Definition directive_m (s : str) : option (Z * str) :=
  match s with
  | a :: b :: r =>
    if (a =? 49) && between 48 50 b then Some (10 + digit_val b, r)%Z
    else if (a =? 48) && between 49 57 b then Some (digit_val b, r)
    else if between 49 57 a then Some (digit_val a, b :: r)
    else None
  | [a] => if between 49 57 a then Some (digit_val a, []) else None
  | [] => None
  end.

(** [%Y]: four digits. *)
Definition directive_Y (s : str) : option (Z * str) :=
  match s with
  | a :: b :: c :: d :: r =>
    if is_digit a && is_digit b && is_digit c && is_digit d
    then Some (Z_of_digits [digit_val a; digit_val b; digit_val c; digit_val d], r)
    else None
  | _ => None
  end.

Definition is_leap (y : Z) : bool :=
  ((y mod 4 =? 0) && negb (y mod 100 =? 0) || (y mod 400 =? 0))%Z.

Definition days_in_month (y m : Z) : Z :=
  (if m =? 2 then (if is_leap y then 29 else 28)
   else if (m =? 4) || (m =? 6) || (m =? 9) || (m =? 11) then 30
   else 31)%Z.

(** A literal [.] of the format. *)
Definition dot (s : str) : option str :=
  match s with 46 :: r => Some r | _ => None end.

Definition strptime_dmY (s : str) : result datetime :=
  match directive_d s with
  | Some (d, r1) =>
    match dot r1 with
    | Some r2 =>
      match directive_m r2 with
      | Some (m, r3) =>
        match dot r3 with
        | Some r4 =>
          match directive_Y r4 with
          | Some (y, []) =>
            if ((1 <=? y) && (d <=? days_in_month y m))%Z
            then Ok (mkdatetime y m d 0 0 0 0)
            else Raise ValueError
          | _ => Raise ValueError
          end
        | None => Raise ValueError
        end
      | None => Raise ValueError
      end
    | None => Raise ValueError
    end
  | None => Raise ValueError
  end.

(* ------------------------------------------------------------------ *)
(** ** [xml.etree.ElementTree] elements *)

#[warnings="-register-all"]
Inductive Element : Type :=
| Elem (tag : str) (attrib : dict str) (text : option str)
       (children : list Element).

Definition tag (e : Element) : str := let 'Elem t _ _ _ := e in t.
Definition attrib (e : Element) : dict str := let 'Elem _ a _ _ := e in a.
Definition text (e : Element) : option str := let 'Elem _ _ x _ := e in x.
Definition children (e : Element) : list Element := let 'Elem _ _ _ c := e in c.

(** [e.get(key)] *)
Definition get (e : Element) (key : str) : option str := dict_get (attrib e) key.

(** [e.findall(t)] with a plain tag: the direct children so tagged. *)
Definition findall (e : Element) (t : str) : list Element :=
  filter (fun c => str_eqb (tag c) t) (children e).

(** [e.findtext(t, default)]: the text of the first child tagged [t] (the
    empty string when it has none), [default] when there is no such child. *)
Definition findtext (e : Element) (t : str) (default : str) : str :=
  match findall e t with
  | c :: _ => match text c with Some x => x | None => [] end
  | [] => default
  end.

(** What [ET.fromstring] makes of the bytes of a reply. *)
Inductive Xml : Type :=
| NotWellFormed
| Document (root : Element).

Definition fromstring (x : Xml) : result Element :=
  match x with
  | NotWellFormed => Raise ParseError
  | Document root => Ok root
  end.

(* ------------------------------------------------------------------ *)
(** ** [requests] *)

Record Response : Type := mkResponse { status_code : Z; content : Xml }.

Definition raise_for_status (r : Response) : result unit :=
  if ((400 <=? status_code r) && (status_code r <? 600))%Z
  then Raise HTTPError else Ok tt.

End Py.

Import Py.
Unset Implicit Arguments.

(* ================================================================== *)
(** * The program *)

(** ** Settings and module state (lines 23-33) *)

Definition CACHE_TTL_SECONDS : Z := 600.

Record globals : Type := mkglobals {
  _rates_cache : option (dict float);
  _names_cache : option (dict str);
  _date_cache : option datetime;
  _last_fetch_ts : option float
}.

(** The state at import time. *)
Definition initial_globals : globals := mkglobals None None None None.

(** What the outside world answers during one call:
    [time.time()], [datetime.now()] and [requests.get(CBR_DAILY_URL)]. *)
Record env : Type := mkenv {
  time_time : float;
  datetime_now : datetime;
  requests_get : result Response
}.

Definition table : Type := (dict float * dict str * datetime)%type.

(** ** fetch_cbr_rates (lines 44-105) *)

(** Lines 91-94, the body of the [try]: the rate of one record. *)
Definition rub_per_unit (nominal_str value_str : str) : result float :=
  bind (int nominal_str) (fun nominal =>
  bind (float_of_str (replace 44 46 value_str)) (fun value =>
  truediv_int value nominal)).

(** One turn of the loop over the [Valute] records (lines 83-100).  [Ok] with
    the tables untouched is [continue]. *)
Definition valute_step (acc : dict float * dict str) (valute : Element)
  : result (dict float * dict str) :=
  let (rates, names) := acc in
  let char_code := upper (findtext valute (U "CharCode") []) in
  let nominal_str := findtext valute (U "Nominal") (U "1") in
  let value_str := findtext valute (U "Value") (U "0") in
  if negb (truthy char_code) then Ok acc
  else
    match rub_per_unit nominal_str value_str with
    | Raise ValueError => Ok acc
    | Raise e => Raise e
    | Ok rate =>
      Ok (dict_set rates char_code rate,
          dict_set names char_code (findtext valute (U "Name") char_code))
    end.

Fixpoint valute_loop (acc : dict float * dict str) (valutes : list Element)
  : result (dict float * dict str) :=
  match valutes with
  | [] => Ok acc
  | v :: vs => bind (valute_step acc v) (fun acc' => valute_loop acc' vs)
  end.

(** Lines 76-80: the date of the quotations. *)
Definition publication_date (now : datetime) (root : Element) : result datetime :=
  match get root (U "Date") with
  | Some date_str => if truthy date_str then strptime_dmY date_str else Ok now
  | None => Ok now
  end.

(** Lines 72-73: the tables before the loop. *)
Definition initial_rates : dict float := [(U "RUB", one)].
Definition initial_names : dict str := [(U "RUB", U "Российский рубль")].

(** Lines 72-100: from the parsed document to the tables. *)
Definition build_tables (now : datetime) (root : Element) : result table :=
  bind (publication_date now root) (fun cbr_date =>
  bind (valute_loop (initial_rates, initial_names) (findall root (U "Valute")))
       (fun rn =>
  Ok (fst rn, snd rn, cbr_date))).

(** Lines 56-64: the cached tables, when they may be served. *)
Definition cached (force : bool) (now_ts : float) (g : globals) : option table :=
  if force then None
  else
    match _rates_cache g, _names_cache g, _date_cache g, _last_fetch_ts g with
    | Some rates, Some names, Some date, Some last =>
      if flt (fsub now_ts last) (float_of_Z CACHE_TTL_SECONDS)
      then Some (rates, names, date) else None
    | _, _, _, _ => None
    end.

(** Lines 66-70 and 72-100: the GET, the status check, the XML parse and the
    tables. *)
Definition download (w : env) : result table :=
  bind (requests_get w) (fun resp =>
  bind (raise_for_status resp) (fun _ =>
  bind (fromstring (content resp)) (fun root =>
  build_tables (datetime_now w) root))).

(** The call: what it returns or raises, the module state after it, and the
    number of GET requests it issued. *)
Definition fetch_cbr_rates (force : bool) (w : env) (g : globals)
  : result table * globals * nat :=
  let now_ts := time_time w in
  match cached force now_ts g with
  | Some t => (Ok t, g, 0%nat)
  | None =>
    match download w with
    | Ok (rates, names, cbr_date) =>
      (Ok (rates, names, cbr_date),
       mkglobals (Some rates) (Some names) (Some cbr_date) (Some now_ts),
       1%nat)
    | Raise e => (Raise e, g, 1%nat)
    end
  end.

(** ** normalize_text (lines 108-109) *)

Definition normalize_text (text : str) : str :=
  replace 1105 1077 (lower (strip text)).   (* "ё" -> "е" *)

(** ** detect_currency_code (lines 112-188) *)

Definition aliases : dict str :=
  [ (U "rub", U "RUB"); (U "rur", U "RUB"); (U "руб", U "RUB");
    (U "рубль", U "RUB"); (U "рубли", U "RUB"); (U "рублей", U "RUB");
    (U "россия", U "RUB"); (U "рф", U "RUB"); (U "russia", U "RUB");
    (U "usd", U "USD"); (U "доллар", U "USD"); (U "доллары", U "USD");
    (U "долларов", U "USD"); (U "бакс", U "USD"); (U "баксы", U "USD");
    (U "сша", U "USD"); (U "usa", U "USD"); (U "america", U "USD");
    (U "америка", U "USD");
    (U "kzt", U "KZT"); (U "тенге", U "KZT"); (U "казахстан", U "KZT");
    (U "казахстанский", U "KZT"); (U "казахстана", U "KZT");
    (U "thb", U "THB"); (U "бат", U "THB"); (U "баты", U "THB");
    (U "батов", U "THB"); (U "тайланд", U "THB"); (U "тайский", U "THB");
    (U "thailand", U "THB") ].

(** Tier 1 (lines 172-174): the first token that is an alias. *)
Fixpoint by_alias (tokens : list str) : option str :=
  match tokens with
  | [] => None
  | token :: rest =>
    match dict_get aliases token with
    | Some code => Some code
    | None => by_alias rest
    end
  end.

(** Tier 2 (lines 177-180): the first token that, upper-cased, is a key of
    [rates]. *)
Fixpoint by_code (rates : dict float) (tokens : list str) : option str :=
  match tokens with
  | [] => None
  | token :: rest =>
    let code := upper token in
    if dict_in code rates then Some code else by_code rates rest
  end.

(** Tier 3 (lines 183-186): the first entry of [names], in the dict's order,
    whose normalized name contains the whole normalized phrase. *)
Fixpoint by_name (normalized : str) (items : dict str) : option str :=
  match items with
  | [] => None
  | (code, name) :: rest =>
    if contains (normalize_text name) normalized then Some code
    else by_name normalized rest
  end.

Definition tokenize (normalized : str) : list str :=
  split (replace 46 32 (replace 44 32 normalized)).

Definition detect_currency_code (raw_currency : str)
    (rates : dict float) (names : dict str) : option str :=
  let normalized := normalize_text raw_currency in
  let tokens := tokenize normalized in
  match by_alias tokens with
  | Some code => Some code
  | None =>
    match by_code rates tokens with
    | Some code => Some code
    | None => by_name normalized names
    end
  end.

(** ** parse_amount_and_currency (lines 191-214) *)

Definition parse_amount_and_currency (text : str) : option float * option str :=
  let cleaned := strip (replace 44 46 text) in
  let parts := split cleaned in
  match parts with
  | [] => (None, None)
  | first :: rest =>
    match float_of_str first with
    | Raise _ => (None, None)
    | Ok amount =>
      match rest with
      | [] => (Some amount, None)
      | _ => (Some amount, Some (join [32] rest))
      end
    end
  end.

(** ** handle_convert (lines 244-318) *)

(** What the handler sends back; the failures carry the names the design
    gives them. *)
Inductive reply : Type :=
| NoReply                                   (* line 246 *)
| MissingAmount                             (* lines 252-256 *)
| MissingCurrency                           (* lines 259-263 *)
| RatesUnavailable                          (* lines 269-272 *)
| UnknownCurrency (raw_currency : str)      (* lines 276-281 *)
| CurrencyNotQuoted (code : str)            (* lines 284-287 *)
| IncompleteRates                           (* lines 299-302 *)
| Converted (cbr_date : datetime) (amount : float) (code : str)
            (amount_in_rub amount_in_usd amount_in_kzt amount_in_thb : float).

Definition handle_convert (message_text : option str) (w : env) (g : globals)
  : result reply * globals * nat :=
  match message_text with
  | None => (Ok NoReply, g, 0%nat)
  | Some txt =>
    if negb (truthy txt) then (Ok NoReply, g, 0%nat)
    else
      let user_text := strip txt in
      match parse_amount_and_currency user_text with
      | (None, _) => (Ok MissingAmount, g, 0%nat)
      | (Some _, None) => (Ok MissingCurrency, g, 0%nat)
      | (Some amount, Some raw_currency) =>
        match fetch_cbr_rates false w g with
        | (Raise _, g', n) => (Ok RatesUnavailable, g', n)
        | (Ok (rates, names, cbr_date), g', n) =>
          match detect_currency_code raw_currency rates names with
          | None => (Ok (UnknownCurrency raw_currency), g', n)
          | Some currency_code =>
            match dict_get rates currency_code with
            | None => (Ok (CurrencyNotQuoted currency_code), g', n)
            | Some rub_per_unit =>
              let amount_in_rub := fmul amount rub_per_unit in
              match dict_get rates (U "USD"), dict_get rates (U "KZT"),
                    dict_get rates (U "THB") with
              | Some usd_rate, Some kzt_rate, Some thb_rate =>
                (bind (truediv amount_in_rub usd_rate) (fun amount_in_usd =>
                 bind (truediv amount_in_rub kzt_rate) (fun amount_in_kzt =>
                 bind (truediv amount_in_rub thb_rate) (fun amount_in_thb =>
                 Ok (Converted cbr_date amount currency_code amount_in_rub
                               amount_in_usd amount_in_kzt amount_in_thb)))),
                 g', n)
              | _, _, _ => (Ok IncompleteRates, g', n)
              end
            end
          end
        end
      end
  end.


(** The handler with its sends.  Every reply goes out through
    [update.message.reply_text] (lines 252, 259, 270, 276, 284, 299 and
    318), a call of the Telegram API that can raise; the handler catches
    none of its errors, the one on line 270 being raised inside the
    [except] clause.  On each path the send is the last statement before
    the return, and line 246 returns without one.  [reply_text r] is
    [Some err] when sending [r] raises [err], for [E] the type of the
    errors of the API. *)
Inductive outcome (E : Type) : Type :=
| Returned (r : reply)                 (* the handler returns *)
| Uncaught (e : exn)                   (* raised before any send *)
| SendRaised (r : reply) (err : E).    (* raised by [reply_text] *)

Arguments Returned {E} r.
Arguments Uncaught {E} e.
Arguments SendRaised {E} r err.

Definition handle_convert_and_reply {E : Type} (message_text : option str)
    (w : env) (reply_text : reply -> option E) (g : globals)
  : outcome E * globals * nat :=
  match handle_convert message_text w g with
  | (Raise e, g', n) => (Uncaught e, g', n)
  | (Ok NoReply, g', n) => (Returned NoReply, g', n)
  | (Ok r, g', n) =>
    match reply_text r with
    | None => (Returned r, g', n)
    | Some err => (SendRaised r err, g', n)
    end
  end.


(** ** format_amount (lines 217-223) *)

(** The quotient [num / den] rounded to the nearest integer, ties to even. *)
Definition round_half_even (num den : Z) : Z :=
  let q := (num / den)%Z in
  match (2 * (num mod den) ?= den)%Z with
  | Lt => q
  | Gt => (q + 1)%Z
  | Eq => if Z.even q then q else (q + 1)%Z
  end.

(** The integer nearest to [m * 2^e * 10^d]: the digits of a float shown
    with [d] decimals, without the point. *)
Definition scaled (m : positive) (e d : Z) : Z :=
  match e with
  | Zneg k => round_half_even (Zpos m * 10 ^ d) (2 ^ Zpos k)
  | _ => (Zpos m * 2 ^ e * 10 ^ d)%Z
  end.

(** The decimal digits of [n >= 0], most significant first; [fuel] bounds
    their number. *)
Fixpoint decimal (fuel : nat) (n : Z) : str :=
  match fuel with
  | O => []
  | S fuel' =>
    if (n <? 10)%Z then [Z.to_N (48 + n)]
    else decimal fuel' (n / 10) ++ [Z.to_N (48 + n mod 10)]
  end.

Definition int_digits (n : Z) : str := decimal (S (Z.to_nat (Z.log2 n))) n.

(** The last [d] decimal digits of [n], zeros included. *)
Fixpoint frac_digits (d : nat) (n : Z) : str :=
  match d with
  | O => []
  | S d' => frac_digits d' (n / 10) ++ [Z.to_N (48 + n mod 10)]
  end.

(** A comma after every third digit, on digits given least significant
    first. *)
Fixpoint group3 (rev_digits : str) : str :=
  match rev_digits with
  | a :: b :: c :: ((_ :: _) as rest) => a :: b :: c :: 44 :: group3 rest
  | _ => rev_digits
  end.

Definition minus (s : bool) : str := if s then [45] else [].

(** [f"{value:,.{d}f}"] for [0 <= d]. *)
Definition format_fixed (value : float) (d : Z) : str :=
  let body (s : bool) (n : Z) : str :=
    minus s
    ++ rev (group3 (rev (int_digits (n / 10 ^ d))))
    ++ (if (d =? 0)%Z then [] else 46 :: frac_digits (Z.to_nat d) (n mod 10 ^ d)) in
  match value with
  | S754_nan => U "nan"
  | S754_infinity s => minus s ++ U "inf"
  | S754_zero s => body s 0%Z
  | S754_finite s m e => body s (scaled m e d)
  end.

(** A precision the format specification rejects raises. *)
Definition INT_MAX : Z := 2147483647.

Definition format_amount (value : float) (digits : Z) : result str :=
  if (digits <? 0)%Z || (INT_MAX <? digits)%Z then Raise ValueError
  else Ok (replace 44 32 (format_fixed value digits)).

(** ** [cbr_date.strftime('%d.%m.%Y')] (line 309) *)

Definition pad2 (n : Z) : str :=
  [Z.to_N (48 + n / 10); Z.to_N (48 + n mod 10)].

(** The year is shown with four digits (years below 1000 are padded with
    zeros). *)
Definition strftime_dmY (d : datetime) : str :=
  pad2 (day d) ++ [46] ++ pad2 (month d) ++ [46]
  ++ pad2 (year d / 100) ++ pad2 (year d mod 100).

(* ================================================================== *)
(** * Vocabulary of the statements *)

Definition RUB : str := U "RUB".
Definition USD : str := U "USD".
Definition KZT : str := U "KZT".
Definition THB : str := U "THB".

(** The code of a record as line 83 reads it, and its rate as lines 84-94
    compute it. *)
Definition char_code (valute : Element) : str :=
  upper (findtext valute (U "CharCode") []).

Definition quoted (valute : Element) : result float :=
  rub_per_unit (findtext valute (U "Nominal") (U "1"))
               (findtext valute (U "Value") (U "0")).

Definition raises {A} (r : result A) : bool :=
  match r with Raise _ => true | Ok _ => false end.

(** A record the loop skips (lines 87-88 and 95-97): its code is empty, or
    [int()] rejects its nominal, or [float()] rejects its value.  A value
    such as [nan] or [inf], which [float()] accepts, does not make a record
    bad in this sense. *)
Definition bad_record (valute : Element) : bool :=
  negb (truthy (char_code valute))
  || raises (int (findtext valute (U "Nominal") (U "1")))
  || raises (float_of_str (replace 44 46 (findtext valute (U "Value") (U "0")))).

(** The ways a refresh can fail, in the order the code meets them. *)
Inductive refresh_failure (w : env) : exn -> Prop :=
| network_failure e :
    requests_get w = Raise e -> refresh_failure w e
| bad_status resp e :
    requests_get w = Ok resp ->
    raise_for_status resp = Raise e -> refresh_failure w e
| unparseable_feed resp e :
    requests_get w = Ok resp ->
    raise_for_status resp = Ok tt ->
    fromstring (content resp) = Raise e -> refresh_failure w e
| unusable_feed resp root e :
    requests_get w = Ok resp ->
    raise_for_status resp = Ok tt ->
    fromstring (content resp) = Ok root ->
    build_tables (datetime_now w) root = Raise e -> refresh_failure w e.

(** Two calls in a row, the second one not forced: both results, the module
    state at the end and the GET requests issued in all. *)
Definition two_calls (force : bool) (w1 w2 : env) (g0 : globals)
  : result table * result table * globals * nat :=
  let '(r1, g1, n1) := fetch_cbr_rates force w1 g0 in
  let '(r2, g2, n2) := fetch_cbr_rates false w2 g1 in
  (r1, r2, g2, (n1 + n2)%nat).

(** What handle_convert makes of the pair (lines 251 and 258). *)
Definition missing_amount (p : option float * option str) : Prop :=
  fst p = None.

Definition missing_currency (p : option float * option str) : Prop :=
  fst p <> None /\ snd p = None.

(** A float that is a real number: neither a NaN nor an infinity. *)
Definition is_real (x : float) : bool :=
  match x with
  | S754_nan | S754_infinity _ => false
  | S754_zero _ | S754_finite _ _ _ => true
  end.

(** The amount the first token stands for, if it is one. *)
Definition amount_of (tokens : list str) : option float :=
  match tokens with
  | first :: _ =>
    match float_of_str first with Ok a => Some a | Raise _ => None end
  | [] => None
  end.

(** The document with its bad [Valute] records taken out. *)
Definition is_valute (c : Element) : bool := str_eqb (tag c) (U "Valute").

Definition without_bad_records (root : Element) : Element :=
  Elem (tag root) (attrib root) (text root)
       (filter (fun c => negb (is_valute c && bad_record c)) (children root)).

(** A float that is not a NaN and has the sign bit [s]. *)
Definition sign_is (s : bool) (x : float) : Prop :=
  match x with
  | S754_zero s' | S754_infinity s' | S754_finite s' _ _ => s' = s
  | S754_nan => False
  end.

(** A strictly positive rate. *)
Definition strictly_positive (x : float) : bool := flt (S754_zero false) x.

(** An alias word, looked up as a phrase of its own, is its own single
    token and maps to the code the table of aliases gives it. *)
Definition alias_resolves_itself (entry : str * str) : bool :=
  let (word, code) := entry in
  match tokenize (normalize_text word) with
  | [token] =>
    str_eqb token word
    && match dict_get aliases word with
       | Some c => str_eqb c code
       | None => false
       end
  | _ => false
  end.

(** The first element of a list on which [f] answers, as the three loops
    of the resolver search. *)
Fixpoint first_match {A B : Type} (f : A -> option B) (l : list A) : option B :=
  match l with
  | [] => None
  | a :: l' => match f a with Some b => Some b | None => first_match f l' end
  end.

(** The codes the aliases stand for. *)
Definition alias_codes : list str := [RUB; USD; KZT; THB].

(** A record the loop stores: it has a code and its rate can be computed. *)
Definition accepted (valute : Element) : bool :=
  truthy (char_code valute) && negb (raises (quoted valute)).

(** The last record of the feed stored under [code], if any. *)
Fixpoint latest (code : str) (valutes : list Element) : option Element :=
  match valutes with
  | [] => None
  | v :: rest =>
    match latest code rest with
    | Some u => Some u
    | None => if accepted v && str_eqb (char_code v) code then Some v else None
    end
  end.

(** The cache variables are unset together, or set together to tables that
    a run of the parser returned. *)
Definition coherent (g : globals) : Prop :=
  match _rates_cache g, _names_cache g, _date_cache g, _last_fetch_ts g with
  | None, None, None, None => True
  | Some rates, Some names, Some date, Some _ =>
    exists now root, build_tables now root = Ok (rates, names, date)
  | _, _, _, _ => False
  end.

(** The states the module can be in: the one at import time, and those left
    by a call of [fetch_cbr_rates] or of [handle_convert]. *)
Inductive reachable : globals -> Prop :=
| reachable_initial : reachable initial_globals
| reachable_fetch g force w :
    reachable g -> reachable (snd (fst (fetch_cbr_rates force w g)))
| reachable_convert g message_text w :
    reachable g -> reachable (snd (fst (handle_convert message_text w g))).

(** [isspace] as a proposition. *)
Definition is_space (c : N) : Prop :=
  9 <= c <= 13 \/ 28 <= c <= 32 \/ c = 133 \/ c = 160 \/ c = 5760
  \/ 8192 <= c <= 8202 \/ c = 8232 \/ c = 8233 \/ c = 8239 \/ c = 8287
  \/ c = 12288.

(** A token: not empty and free of white space. *)
Definition is_token (s : str) : Prop :=
  s <> [] /\ Forall (fun c => isspace c = false) s.

(** What normalize_text does to one code point. *)
Definition normalize_char (c : N) : N :=
  let l := lower_char c in if l =? 1105 then 1077 else l.

(** A word of Latin letters. *)
Definition ascii_letters (s : str) : bool :=
  forallb (fun c => between 65 90 c || between 97 122 c) s.

(** ** Sample documents and environments *)

Definition xml_leaf (t x : string) : Element := Elem (U t) [] (Some (U x)) [].

Definition xml_valute (code nominal value name : string) : Element :=
  Elem (U "Valute") []  None
       [xml_leaf "CharCode" code; xml_leaf "Nominal" nominal;
        xml_leaf "Name" name; xml_leaf "Value" value].

Definition sample_feed : Element :=
  Elem (U "ValCurs") [(U "Date", U "02.03.2002")] None
       [xml_valute "AUD" "1" "16,0102" "Австралийский доллар";
        xml_valute "USD" "1" "95,00" "Доллар США";
        xml_valute "KZT" "100" "21,00" "Казахстанских тенге";
        xml_valute "THB" "10" "26,00" "Таиландских батов"].

(** One good record among three bad ones: no code, a nominal that is not
    an integer, a value that is not a number. *)
Definition feed_with_bad_records : Element :=
  Elem (U "ValCurs") [(U "Date", U "02.03.2002")] None
       [xml_valute "" "1" "10,00" "Без кода";
        xml_valute "USD" "1" "95,00" "Доллар США";
        xml_valute "KZT" "сто" "21,00" "Казахстанских тенге";
        xml_valute "THB" "10" "n/a" "Таиландских батов"].

(** The dollar quoted at [nan], as the only record. *)
Definition feed_nan_value : Element :=
  Elem (U "ValCurs") [(U "Date", U "02.03.2002")] None
       [xml_valute "USD" "1" "nan" "Доллар США"].

(** The dollar quoted at zero. *)
Definition feed_zero_value : Element :=
  Elem (U "ValCurs") [(U "Date", U "02.03.2002")] None
       [xml_valute "USD" "1" "0" "Доллар США";
        xml_valute "KZT" "100" "21,00" "Казахстанских тенге";
        xml_valute "THB" "10" "26,00" "Таиландских батов"].

(** No [Date] attribute on the root. *)
Definition feed_no_date : Element :=
  Elem (U "ValCurs") [] None
       [xml_valute "USD" "1" "95,00" "Доллар США"].

(** No records at all. *)
Definition feed_empty : Element :=
  Elem (U "ValCurs") [(U "Date", U "02.03.2002")] None [].

(** The dollar quoted twice, the second time without a name. *)
Definition feed_requoted : Element :=
  Elem (U "ValCurs") [(U "Date", U "02.03.2002")] None
       [xml_valute "USD" "1" "95,00" "Доллар США";
        xml_valute "KZT" "100" "21,00" "Казахстанских тенге";
        Elem (U "Valute") [] None
             [xml_leaf "CharCode" "usd"; xml_leaf "Value" "96,50"]].

Definition at_time (seconds : Z) (reply : result Response) : env :=
  mkenv (float_of_Z seconds) (mkdatetime 2026 11 3 12 0 0 0) reply.

Definition serving (root : Element) : result Response :=
  Ok (mkResponse 200 (Document root)).

Definition sample_env : env := at_time 1700000000 (serving sample_feed).

Definition sample_table : table :=
  Eval vm_compute in
    match build_tables (datetime_now sample_env) sample_feed with
    | Ok t => t
    | Raise _ => ([], [], datetime_now sample_env)
    end.

Definition no_date_env : env := at_time 1700000900 (serving feed_no_date).

Definition no_date_table : table :=
  Eval vm_compute in
    match build_tables (datetime_now no_date_env) feed_no_date with
    | Ok t => t
    | Raise _ => ([], [], datetime_now no_date_env)
    end.

Definition empty_table : table :=
  Eval vm_compute in
    match build_tables (datetime_now sample_env) feed_empty with
    | Ok t => t
    | Raise _ => ([], [], datetime_now sample_env)
    end.

Definition zero_value_env : env := at_time 1700000000 (serving feed_zero_value).

Definition zero_value_table : table :=
  Eval vm_compute in
    match build_tables (datetime_now zero_value_env) feed_zero_value with
    | Ok t => t
    | Raise _ => ([], [], datetime_now zero_value_env)
    end.

Definition zero_value_globals : globals :=
  let '(rates, names, date) := zero_value_table in
  mkglobals (Some rates) (Some names) (Some date) (Some (time_time zero_value_env)).

Definition sample_globals : globals :=
  let '(rates, names, date) := sample_table in
  mkglobals (Some rates) (Some names) (Some date) (Some (time_time sample_env)).


(* ================================================================== *)
(** * Facts about the Python library model *)

Lemma str_eqb_eq (a b : str) : str_eqb a b = true <-> a = b.
Proof.
  unfold str_eqb. destruct (list_eq_dec N.eq_dec a b); split; congruence.
Qed.

Lemma str_eqb_refl (a : str) : str_eqb a a = true.
Proof. now apply str_eqb_eq. Qed.

Lemma str_eqb_neq (a b : str) : str_eqb a b = false <-> a <> b.
Proof.
  unfold str_eqb. destruct (list_eq_dec N.eq_dec a b); split; congruence.
Qed.

(** ** [split] ignores leading and trailing white space *)

Lemma split_from_lstrip (s : str) : split_from [] (lstrip s) = split_from [] s.
Proof.
  induction s as [|c s IH]; simpl; [reflexivity|].
  destruct (isspace c) eqn:E; [exact IH|].
  simpl. now rewrite E.
Qed.

Lemma split_from_snoc_space (s : str) (c : N) :
  isspace c = true ->
  forall cur, split_from cur (s ++ [c]) = split_from cur s.
Proof.
  intros Hc. induction s as [|a s IH]; intros cur; simpl.
  - rewrite Hc. now destruct cur.
  - destruct (isspace a); [destruct cur|]; now rewrite IH.
Qed.

Lemma split_from_rev_lstrip (l : str) :
  forall cur, split_from cur (rev (lstrip l)) = split_from cur (rev l).
Proof.
  induction l as [|c l IH]; intros cur; simpl; [reflexivity|].
  destruct (isspace c) eqn:E; [|reflexivity].
  now rewrite IH, split_from_snoc_space.
Qed.

Lemma split_strip (s : str) : split (strip s) = split s.
Proof.
  unfold split, strip, rstrip.
  rewrite split_from_rev_lstrip, rev_involutive.
  apply split_from_lstrip.
Qed.

(** ** Dictionaries *)

Section DictFacts.
Variable V : Type.
Implicit Types (d : dict V) (k : str) (v : V).

Lemma dict_get_set_same d k v : dict_get (dict_set d k v) k = Some v.
  Proof.
    induction d as [|[k' v'] d IH]; simpl.
    - now rewrite str_eqb_refl.
    - destruct (str_eqb k k') eqn:E; simpl; rewrite E; [reflexivity|exact IH].
  Qed.

Lemma dict_get_set_other d k k0 v :
    k0 <> k -> dict_get (dict_set d k v) k0 = dict_get d k0.
  Proof.
    intros Hne. induction d as [|[k' v'] d IH]; simpl.
    - apply str_eqb_neq in Hne. now rewrite Hne.
    - destruct (str_eqb k k') eqn:E; simpl.
      + apply str_eqb_eq in E. subst k'.
        apply str_eqb_neq in Hne. now rewrite Hne.
      + now rewrite IH.
  Qed.

Lemma dict_in_keys d k : dict_in k d = true <-> In k (keys d).
  Proof.
    unfold dict_in. induction d as [|[k' v'] d IH]; simpl.
    - split; [discriminate|tauto].
    - destruct (str_eqb k k') eqn:E.
      + apply str_eqb_eq in E. subst. tauto.
      + apply str_eqb_neq in E. rewrite IH. split; [tauto|].
        intros [H|H]; [congruence|exact H].
  Qed.

(** Assignment adds at most the assigned key, and never moves the head. *)
Lemma keys_dict_set d k v :
    keys (dict_set d k v) = if dict_in k d then keys d else keys d ++ [k].
  Proof.
    unfold dict_in. induction d as [|[k' v'] d IH]; simpl; [reflexivity|].
    destruct (str_eqb k k') eqn:E; simpl; [reflexivity|].
    rewrite IH. now destruct (dict_get d k).
  Qed.
End DictFacts.

(** ** [float()] of a string raises nothing but [ValueError] *)

Lemma float_of_str_raises (s : str) (e : exn) :
  float_of_str s = Raise e -> e = ValueError.
Proof.
  unfold float_of_str.
  destruct (sign (strip s)) as [neg r].
  destruct (str_eqb _ _ || str_eqb _ _); [discriminate|].
  destruct (str_eqb _ _); [discriminate|].
  destruct (number r) as [[[ip fp] r']|]; [|congruence].
  destruct (exponent r'); congruence.
Qed.

Lemma int_raises (s : str) (e : exn) : int s = Raise e -> e = ValueError.
Proof.
  unfold int.
  destruct (sign (strip s)) as [neg r].
  destruct (digitpart r) as [[ds [|c r']]|]; try congruence.
  destruct (Nat.ltb _ _); congruence.
Qed.

(** ** Signs of rounded results *)

Section Signs.
Local Open Scope Z_scope.

Lemma shr_1_nonneg (mrs : shr_record) :
    0 <= shr_m mrs -> 0 <= shr_m (shr_1 mrs).
  Proof.
    destruct mrs as [m r s]. destruct m as [|[p|p|]|[p|p|]]; simpl; lia.
  Qed.

Lemma iter_pos_invariant {A : Type} (P : A -> Prop) (f : A -> A) :
    (forall x, P x -> P (f x)) -> forall p x, P x -> P (iter_pos f p x).
  Proof.
    intros Hf. induction p as [p IH|p IH|]; intros x Hx; simpl; auto.
  Qed.

Lemma shr_fexp_nonneg (m e : Z) (l : location) :
    0 <= m -> 0 <= shr_m (fst (shr_fexp prec emax m e l)).
  Proof.
    intros Hm. unfold shr_fexp, shr.
    assert (H0 : 0 <= shr_m (shr_record_of_loc m l))
      by (destruct l as [|[]]; exact Hm).
    destruct (fexp prec emax (Zdigits2 m + e) - e) as [|p|p]; simpl; auto.
    apply iter_pos_invariant; auto using shr_1_nonneg.
  Qed.

Lemma round_nearest_even_nonneg (m : Z) (l : location) :
    0 <= m -> 0 <= round_nearest_even m l.
  Proof.
    intros Hm. destruct l as [|[]]; simpl; try destruct (Z.even m); lia.
  Qed.

(** Rounding a non-negative mantissa keeps the sign it is given. *)
Lemma binary_round_aux_sign (s : bool) (m e : Z) (l : location) :
    0 <= m -> sign_is s (binary_round_aux prec emax s m e l).
  Proof.
    intros Hm. unfold binary_round_aux.
    pose proof (shr_fexp_nonneg m e l Hm) as H1.
    destruct (shr_fexp prec emax m e l) as [mrs' e']. simpl in H1.
    pose proof (shr_fexp_nonneg _ e' loc_Exact
                  (round_nearest_even_nonneg _ (loc_of_shr_record mrs') H1)) as H2.
    destruct (shr_fexp prec emax _ e' loc_Exact) as [mrs'' e'']. simpl in H2.
    destruct (shr_m mrs'') as [|p|p]; simpl; [reflexivity| |lia].
    destruct (_ <=? _); reflexivity.
  Qed.

Lemma float_of_Z_sign (p : positive) : sign_is false (float_of_Z (Zpos p)).
  Proof.
    unfold float_of_Z, binary_normalize, binary_round.
    destruct (shl_align p 0 _) as [mz ez].
    apply binary_round_aux_sign. lia.
  Qed.

Lemma SFdiv_sign (x y : float) :
    sign_is false x -> sign_is false y ->
    match x, y with
    | S754_zero _, S754_zero _ | S754_infinity _, S754_infinity _ => True
    | _, _ => sign_is false (SFdiv prec emax x y)
    end.
  Proof.
    destruct x as [sx|sx| |sx mx ex], y as [sy|sy| |sy my ey]; simpl;
      try tauto; try (intros -> ->; reflexivity).
    intros -> ->. simpl.
    unfold SFdiv_core_binary.
    set (m' := match _ with Z0 => _ | Zpos _ => _ | Zneg _ => _ end).
    assert (Hm : 0 <= m').
    { subst m'. destruct (_ - _ - _); try lia. apply Z.shiftl_nonneg. lia. }
    pose proof (Z.div_pos m' (Zpos my) Hm ltac:(lia)) as Hq.
    unfold Z.div in Hq. destruct (Z.div_eucl m' (Zpos my)) as [q r].
    apply binary_round_aux_sign. exact Hq.
  Qed.

Lemma positive_sign (x : float) :
    strictly_positive x = true <-> sign_is false x /\ is_zero x = false.
  Proof.
    unfold strictly_positive, flt, SFltb.
    destruct x as [s|[|]| |[|] m e]; simpl; intuition congruence.
  Qed.

(** A positive float divided by a positive integer is positive, or has
      underflowed to +0.0. *)
Lemma truediv_int_sign (value rate : float) (nominal : Z) :
    strictly_positive value = true -> 0 < nominal ->
    truediv_int value nominal = Ok rate ->
    strictly_positive rate = true \/ rate = S754_zero false.
  Proof.
    intros Hv Hn. apply positive_sign in Hv. destruct Hv as [Sv Zv].
    destruct nominal as [|p|p]; try lia.
    unfold truediv_int, float_of_int.
    pose proof (float_of_Z_sign p) as Sy.
    destruct (float_of_Z (Zpos p)) as [sy|sy| |sy my ey] eqn:E;
      cbn [bind truediv is_zero]; try discriminate; [contradiction|].
    intros [= <-].
    pose proof (SFdiv_sign value (S754_finite sy my ey) Sv Sy) as Sr.
    assert (S : sign_is false (SFdiv prec emax value (S754_finite sy my ey)))
      by (destruct value; try discriminate; exact Sr).
    destruct (SFdiv prec emax value (S754_finite sy my ey)) as [s|s| |s m e];
      simpl in S; try contradiction; subst.
    - now right.
    - left. reflexivity.
    - left. reflexivity.
  Qed.
End Signs.

(* ================================================================== *)
(** * The rate cache *)

Lemma refresh_failure_download (w : env) (e : exn) :
  refresh_failure w e <-> download w = Raise e.
Proof.
  unfold download. split.
  - intros H. inversion H as [e' H1|resp e' H1 H2|resp e' H1 H2 H3|resp root e' H1 H2 H3 H4];
      subst; rewrite H1; simpl; try rewrite H2; simpl; try rewrite H3; simpl; auto.
  - destruct (requests_get w) as [resp|e0] eqn:H1; simpl.
    + destruct (raise_for_status resp) as [[]|e1] eqn:H2; simpl.
      * destruct (fromstring (content resp)) as [root|e2] eqn:H3; simpl.
        -- intros H4. eapply unusable_feed; eauto.
        -- intros [= <-]. eapply unparseable_feed; eauto.
      * intros [= <-]. eapply bad_status; eauto.
    + intros [= <-]. now apply network_failure.
Qed.

(** A call that raises has attempted a refresh, and the state is as before. *)
Lemma fetch_raise_inv (force : bool) (w : env) (g g' : globals) (e : exn) (n : nat) :
  fetch_cbr_rates force w g = (Raise e, g', n) ->
  cached force (time_time w) g = None /\ download w = Raise e /\ g' = g /\ n = 1%nat.
Proof.
  unfold fetch_cbr_rates.
  destruct (cached force (time_time w) g) as [t|]; [discriminate|].
  destruct (download w) as [[[rates names] d]|e0]; [discriminate|].
  intros [= <- <- <-]. auto.
Qed.

(** C8. When a refresh attempt fails (the GET raises, the status is not a
    success, the body is not well-formed, or the tables cannot be built),
    the call raises that very exception and the four cache variables are
    what they were, so later calls see the same cache. *)
Theorem refresh_failure_leaves_cache :
  forall (force : bool) (w : env) (g : globals) (e : exn),
    cached force (time_time w) g = None ->
    refresh_failure w e ->
    fetch_cbr_rates force w g = (Raise e, g, 1%nat)
    /\ forall g' r n, fetch_cbr_rates force w g = (r, g', n) ->
         _rates_cache g' = _rates_cache g
         /\ _names_cache g' = _names_cache g
         /\ _date_cache g' = _date_cache g
         /\ _last_fetch_ts g' = _last_fetch_ts g
         /\ forall f2 w2, fetch_cbr_rates f2 w2 g' = fetch_cbr_rates f2 w2 g.
Proof.
  intros force w g e Hmiss Hfail.
  apply refresh_failure_download in Hfail.
  assert (E : fetch_cbr_rates force w g = (Raise e, g, 1%nat)).
  { unfold fetch_cbr_rates. now rewrite Hmiss, Hfail. }
  split; [exact E|].
  intros g' r n H. rewrite E in H. injection H as <- <- <-. repeat split.
Qed.

Lemma refresh_failure_leaves_cache_witness :
  cached true (time_time (at_time 1700000900 (Raise RequestException)))
         sample_globals = None
  /\ refresh_failure (at_time 1700000900 (Raise RequestException)) RequestException
  /\ fetch_cbr_rates true (at_time 1700000900 (Raise RequestException)) sample_globals
     = (Raise RequestException, sample_globals, 1%nat).
Proof.
  split; [reflexivity|]. split; [now apply network_failure|].
  apply (refresh_failure_leaves_cache true
           (at_time 1700000900 (Raise RequestException)) sample_globals
           RequestException).
  - reflexivity.
  - now apply network_failure.
Defined.

(** A successful refresh fills the four cache variables. *)
Lemma fetch_fresh_inv (force : bool) (w : env) (g g1 : globals) (t : table) :
  fetch_cbr_rates force w g = (Ok t, g1, 1%nat) ->
  let '(rates, names, date) := t in
  g1 = mkglobals (Some rates) (Some names) (Some date) (Some (time_time w)).
Proof.
  unfold fetch_cbr_rates.
  destruct (cached force (time_time w) g) as [t0|]; [discriminate|].
  destruct (download w) as [[[rates names] d]|e0]; [|discriminate].
  intros [= <- <-]. reflexivity.
Qed.

(** C7. After a call that fetched a table over the network at time [t], a
    second, unforced call whose measured age [now - t] is below 600 seconds
    returns that same table, leaves the state alone and issues no GET: the
    two calls together issue exactly one. *)
Theorem second_call_within_ttl_hits_cache :
  forall (force : bool) (w1 w2 : env) (g0 g1 : globals) (t : table),
    fetch_cbr_rates force w1 g0 = (Ok t, g1, 1%nat) ->
    flt (fsub (time_time w2) (time_time w1)) (float_of_Z CACHE_TTL_SECONDS) = true ->
    fetch_cbr_rates false w2 g1 = (Ok t, g1, 0%nat)
    /\ two_calls force w1 w2 g0 = (Ok t, Ok t, g1, 1%nat).
Proof.
  intros force w1 w2 g0 g1 t H1 Hage.
  assert (H2 : fetch_cbr_rates false w2 g1 = (Ok t, g1, 0%nat)).
  { pose proof (fetch_fresh_inv _ _ _ _ _ H1) as Hg.
    destruct t as [[rates names] date]. subst g1.
    unfold fetch_cbr_rates, cached.
    cbn [_rates_cache _names_cache _date_cache _last_fetch_ts].
    now rewrite Hage. }
  split; [exact H2|].
  unfold two_calls. now rewrite H1, H2.
Qed.

Lemma second_call_within_ttl_hits_cache_witness :
  fetch_cbr_rates false sample_env initial_globals
    = (Ok sample_table, sample_globals, 1%nat)
  /\ flt (fsub (time_time (at_time 1700000599 (Raise RequestException)))
               (time_time sample_env))
         (float_of_Z CACHE_TTL_SECONDS) = true
  /\ two_calls false sample_env (at_time 1700000599 (Raise RequestException))
               initial_globals
     = (Ok sample_table, Ok sample_table, sample_globals, 1%nat).
Proof.
  split; [reflexivity|]. split; [reflexivity|].
  apply (second_call_within_ttl_hits_cache false sample_env
           (at_time 1700000599 (Raise RequestException)) initial_globals
           sample_globals sample_table);
    reflexivity.
Defined.

(** At an age of exactly 600 seconds the cache is no longer served. *)
Example cache_expires_at_ttl :
  cached false (time_time (at_time 1700000600 (Raise RequestException)))
         sample_globals = None.
Proof. reflexivity. Qed.

(* ================================================================== *)
(** * The feed parser *)

(** ** Bad records are skipped *)

Lemma valute_step_bad (acc : dict float * dict str) (v : Element) :
  bad_record v = true -> valute_step acc v = Ok acc.
Proof.
  unfold bad_record, valute_step, char_code, rub_per_unit.
  destruct acc as [rates names].
  destruct (truthy (upper (findtext v (U "CharCode") []))); simpl; [|reflexivity].
  destruct (int (findtext v (U "Nominal") (U "1"))) as [nominal|e] eqn:Hn; simpl.
  - destruct (float_of_str _) as [value|e] eqn:Hv; simpl; [discriminate|].
    intros _. now rewrite (float_of_str_raises _ _ Hv).
  - intros _. now rewrite (int_raises _ _ Hn).
Qed.

Lemma valute_loop_app (acc : dict float * dict str) (xs ys : list Element) :
  valute_loop acc (xs ++ ys)
  = bind (valute_loop acc xs) (fun acc' => valute_loop acc' ys).
Proof.
  revert acc. induction xs as [|x xs IH]; intros acc; simpl; [reflexivity|].
  destruct (valute_step acc x); simpl; [apply IH|reflexivity].
Qed.

Lemma valute_loop_skip_bad (acc : dict float * dict str) (vs : list Element) :
  valute_loop acc (filter (fun v => negb (bad_record v)) vs) = valute_loop acc vs.
Proof.
  revert acc. induction vs as [|v vs IH]; intros acc; simpl; [reflexivity|].
  destruct (bad_record v) eqn:B; simpl.
  - rewrite (valute_step_bad acc v B). simpl. apply IH.
  - destruct (valute_step acc v); simpl; [apply IH|reflexivity].
Qed.

Lemma findall_without_bad_records (root : Element) :
  findall (without_bad_records root) (U "Valute")
  = filter (fun v => negb (bad_record v)) (findall root (U "Valute")).
Proof.
  unfold findall, without_bad_records, is_valute. simpl.
  induction (children root) as [|c cs IH]; simpl; [reflexivity|].
  destruct (str_eqb (tag c) (U "Valute")) eqn:T; simpl.
  - destruct (bad_record c); simpl; [exact IH|]. rewrite T. simpl. now rewrite IH.
  - now rewrite T.
Qed.

(** A loop over records that are each bad or quotable ends with tables. *)
Lemma valute_loop_returns (vs : list Element) :
  (forall v, In v vs -> bad_record v = true \/ exists rate, quoted v = Ok rate) ->
  forall acc, exists acc', valute_loop acc vs = Ok acc'.
Proof.
  induction vs as [|v vs IH]; intros Hall acc; simpl; [eauto|].
  assert (Hv : exists acc1, valute_step acc v = Ok acc1).
  { destruct (Hall v (or_introl eq_refl)) as [B|[rate Q]].
    - rewrite (valute_step_bad acc v B). eauto.
    - unfold valute_step, quoted in *. destruct acc as [rates names].
      destruct (negb _); [eauto|]. rewrite Q. eauto. }
  destruct Hv as [acc1 ->]. simpl. apply IH.
  intros v' Hin. apply Hall. now right.
Qed.

(** ** What the tables hold *)

Lemma valute_step_cases (acc acc' : dict float * dict str) (v : Element) :
  valute_step acc v = Ok acc' ->
  acc' = acc
  \/ exists rate,
       quoted v = Ok rate /\ truthy (char_code v) = true
       /\ acc' = (dict_set (fst acc) (char_code v) rate,
                  dict_set (snd acc) (char_code v)
                           (findtext v (U "Name") (char_code v))).
Proof.
  unfold valute_step, quoted, char_code. destruct acc as [rates names].
  destruct (truthy (upper (findtext v (U "CharCode") []))); simpl.
  - destruct (rub_per_unit _ _) as [rate|[]]; intros [= <-]; eauto.
  - intros [= <-]. now left.
Qed.

(** Induction over the loop: a property kept by every turn holds at the end. *)
Lemma valute_loop_invariant (P : dict float * dict str -> Prop) (vs : list Element) :
  (forall acc v acc', In v vs -> P acc -> valute_step acc v = Ok acc' -> P acc') ->
  forall acc acc', P acc -> valute_loop acc vs = Ok acc' -> P acc'.
Proof.
  induction vs as [|v vs IH]; intros Hstep acc acc' HP; simpl.
  - now intros [= <-].
  - destruct (valute_step acc v) as [acc1|e] eqn:E; simpl; [|discriminate].
    apply IH.
    + intros a x a' Hin. apply Hstep. now right.
    + apply (Hstep acc v acc1); auto. now left.
Qed.

Lemma dict_in_same_keys {A B : Type} (d1 : dict A) (d2 : dict B) (k : str) :
  keys d1 = keys d2 -> dict_in k d1 = dict_in k d2.
Proof.
  intros E.
  destruct (dict_in k d1) eqn:H1, (dict_in k d2) eqn:H2; try reflexivity.
  - apply dict_in_keys in H1. rewrite E in H1. apply dict_in_keys in H1. congruence.
  - apply dict_in_keys in H2. rewrite <- E in H2. apply dict_in_keys in H2. congruence.
Qed.

(** Rates and names have the same keys in the same order, [RUB] first. *)
Lemma valute_loop_keys (vs : list Element) (acc' : dict float * dict str) :
  valute_loop (initial_rates, initial_names) vs = Ok acc' ->
  keys (fst acc') = keys (snd acc')
  /\ exists others, keys (snd acc') = RUB :: others.
Proof.
  apply (valute_loop_invariant
           (fun acc => keys (fst acc) = keys (snd acc)
                       /\ exists others, keys (snd acc) = RUB :: others)).
  - intros acc v acc1 _ [Hk [others Ho]] Hs.
    destruct (valute_step_cases _ _ _ Hs) as [->|[rate [_ [_ ->]]]]; [eauto|].
    simpl. rewrite !keys_dict_set, (dict_in_same_keys _ (snd acc) _ Hk), Hk.
    destruct (dict_in (char_code v) (snd acc)); split; eauto.
    rewrite Ho. simpl. eauto.
  - split; [reflexivity|]. exists []. reflexivity.
Qed.

Lemma build_tables_inv (now : datetime) (root : Element) (rates : dict float)
      (names : dict str) (date : datetime) :
  build_tables now root = Ok (rates, names, date) ->
  publication_date now root = Ok date
  /\ valute_loop (initial_rates, initial_names) (findall root (U "Valute"))
     = Ok (rates, names).
Proof.
  unfold build_tables.
  destruct (publication_date now root) as [d|e]; simpl; [|discriminate].
  destruct (valute_loop _ _) as [[r n]|e]; simpl; [|discriminate].
  now intros [= <- <- <-].
Qed.

(** C1, as the code has it.  When the parser returns a table, [RUB] is in
    it; its rate is exactly 1.0 provided no record of the feed carries the
    code RUB; every rate in the table is either that initial 1.0 of RUB or
    the quotient value / nominal of a feed record carrying the code; and
    such a quotient is strictly positive, or has underflowed to +0.0, when
    the record's value and nominal are strictly positive.  The parser checks
    no sign: a value of 0 gives the rate 0.0. *)
Theorem parsed_rates_provenance :
  forall (now : datetime) (root : Element) (rates : dict float)
         (names : dict str) (date : datetime),
    build_tables now root = Ok (rates, names, date) ->
    dict_in RUB rates = true
    /\ ((forall v, In v (findall root (U "Valute")) -> char_code v <> RUB) ->
        dict_get rates RUB = Some one)
    /\ (forall code rate,
          dict_get rates code = Some rate ->
          (code = RUB /\ rate = one)
          \/ exists v, In v (findall root (U "Valute"))
                       /\ char_code v = code /\ quoted v = Ok rate)
    /\ (forall v nominal value rate,
          int (findtext v (U "Nominal") (U "1")) = Ok nominal ->
          float_of_str (replace 44 46 (findtext v (U "Value") (U "0"))) = Ok value ->
          quoted v = Ok rate ->
          (0 < nominal)%Z -> strictly_positive value = true ->
          strictly_positive rate = true \/ rate = S754_zero false).
Proof.
  intros now root rates names date H.
  apply build_tables_inv in H. destruct H as [_ H].
  split; [|split; [|split]]; cycle 3.
  { intros v nominal value rate Hn Hv Hq Hpos Hval.
    unfold quoted, rub_per_unit in Hq. rewrite Hn, Hv in Hq. cbn [bind] in Hq.
    eapply truediv_int_sign; eauto. }
  - destruct (valute_loop_keys _ _ H) as [Hk [others Ho]]. simpl in *.
    apply dict_in_keys. rewrite Hk, Ho. now left.
  - intros Hno.
    pose (P := fun acc : dict float * dict str => dict_get (fst acc) RUB = Some one).
    change (P (rates, names)).
    apply (valute_loop_invariant P (findall root (U "Valute")))
      with (acc := (initial_rates, initial_names)); [|reflexivity|exact H].
    intros acc v acc1 Hin HP Hs. unfold P in *.
    destruct (valute_step_cases _ _ _ Hs) as [->|[rate [_ [_ ->]]]]; [exact HP|].
    simpl. rewrite dict_get_set_other; [exact HP|].
    intros E. apply (Hno v Hin). now symmetry.
  - pose (P := fun acc : dict float * dict str =>
                 forall code rate,
                   dict_get (fst acc) code = Some rate ->
                   (code = RUB /\ rate = one)
                   \/ exists v, In v (findall root (U "Valute"))
                                /\ char_code v = code /\ quoted v = Ok rate).
    change (P (rates, names)).
    apply (valute_loop_invariant P (findall root (U "Valute")))
      with (acc := (initial_rates, initial_names)); [| |exact H].
    + intros acc v acc1 Hin HP Hs code rate. unfold P in HP.
      destruct (valute_step_cases _ _ _ Hs) as [->|[r [Q [_ ->]]]]; [apply HP|].
      simpl. destruct (list_eq_dec N.eq_dec code (char_code v)) as [->|Hne].
      * rewrite dict_get_set_same. intros [= <-]. right. eauto.
      * rewrite dict_get_set_other by exact Hne. apply HP.
    + intros code rate. simpl.
      destruct (str_eqb code (U "RUB")) eqn:E; [|discriminate].
      apply str_eqb_eq in E. intros [= <-]. now left.
Qed.

Lemma parsed_rates_provenance_witness :
  build_tables (datetime_now sample_env) sample_feed = Ok sample_table
  /\ dict_in RUB (fst (fst sample_table)) = true.
Proof.
  split; [reflexivity|].
  apply (parsed_rates_provenance (datetime_now sample_env) sample_feed
           (fst (fst sample_table)) (snd (fst sample_table)) (snd sample_table)).
  reflexivity.
Defined.

(** C1 fails as stated: a record quoted at 0 puts the rate 0.0 in the
    table, which is not strictly positive. *)
Lemma parser_admits_zero_rate :
  exists rates names date,
    build_tables (datetime_now sample_env) feed_zero_value = Ok (rates, names, date)
    /\ dict_get rates USD = Some (S754_zero false)
    /\ strictly_positive (S754_zero false) = false.
Proof.
  do 3 eexists. split; [vm_compute; reflexivity|]. split; reflexivity.
Qed.

(** A record coded RUB replaces the base rate. *)
Example feed_can_requote_rub :
  exists rates names date,
    build_tables (datetime_now sample_env)
      (Elem (U "ValCurs") [] None [xml_valute "rub" "1" "2" "Рубль"])
    = Ok (rates, names, date)
    /\ dict_get rates RUB = Some (float_of_Z 2).
Proof.
  do 3 eexists. split; [vm_compute; reflexivity|]. reflexivity.
Qed.

(** A nominal of zero is an integer, so the record is not skipped: the
    division raises and the whole parse with it. *)
Example zero_nominal_is_fatal :
  build_tables (datetime_now sample_env)
    (Elem (U "ValCurs") [] None [xml_valute "USD" "0" "95,00" "Доллар США"])
  = Raise ZeroDivisionError.
Proof. reflexivity. Qed.

(** ** The publication date *)

(** C2, as the code has it.  When the root has no [Date] attribute (or an
    empty one) the refresh does not fail on that account: the publication
    date is [datetime.now()]; if the records go through, the table is
    returned and the cache replaced, and only a record can make it raise. *)
Theorem missing_date_falls_back_to_now :
  forall (force : bool) (w : env) (g : globals) (resp : Response) (root : Element),
    cached force (time_time w) g = None ->
    requests_get w = Ok resp ->
    raise_for_status resp = Ok tt ->
    content resp = Document root ->
    get root (U "Date") = None \/ get root (U "Date") = Some [] ->
    publication_date (datetime_now w) root = Ok (datetime_now w)
    /\ match valute_loop (initial_rates, initial_names) (findall root (U "Valute")) with
       | Ok (rates, names) =>
         fetch_cbr_rates force w g
         = (Ok (rates, names, datetime_now w),
            mkglobals (Some rates) (Some names) (Some (datetime_now w))
                      (Some (time_time w)),
            1%nat)
       | Raise e => fetch_cbr_rates force w g = (Raise e, g, 1%nat)
       end.
Proof.
  intros force w g resp root Hmiss Hget Hst Hdoc Hdate.
  assert (Hp : publication_date (datetime_now w) root = Ok (datetime_now w)).
  { unfold publication_date. now destruct Hdate as [-> | ->]. }
  split; [exact Hp|].
  unfold fetch_cbr_rates, download, build_tables.
  rewrite Hmiss, Hget. cbn [bind]. rewrite Hst. cbn [bind].
  rewrite Hdoc. cbn [bind fromstring]. rewrite Hp. cbn [bind].
  destruct (valute_loop _ _) as [[rates names]|e]; reflexivity.
Qed.

Lemma missing_date_falls_back_to_now_witness :
  cached true (time_time no_date_env) sample_globals = None
  /\ get feed_no_date (U "Date") = None
  /\ publication_date (datetime_now no_date_env) feed_no_date
     = Ok (datetime_now no_date_env).
Proof.
  split; [reflexivity|]. split; [reflexivity|].
  destruct (missing_date_falls_back_to_now true no_date_env sample_globals
              (mkResponse 200 (Document feed_no_date)) feed_no_date
              eq_refl eq_refl eq_refl eq_refl (or_introl eq_refl)) as [Hp _].
  exact Hp.
Defined.

(** C2 fails as stated: on a feed without the date attribute a forced
    refresh returns a table dated [datetime.now()] and overwrites the
    cache that was there. *)
Lemma missing_date_is_not_an_error :
  get feed_no_date (U "Date") = None
  /\ exists g',
       fetch_cbr_rates true no_date_env sample_globals
       = (Ok no_date_table, g', 1%nat)
       /\ snd no_date_table = datetime_now no_date_env
       /\ _date_cache sample_globals = Some (mkdatetime 2002 3 2 0 0 0 0)
       /\ _date_cache g' = Some (datetime_now no_date_env)
       /\ g' <> sample_globals.
Proof.
  split; [reflexivity|].
  eexists. split; [vm_compute; reflexivity|].
  repeat split. intros E. apply (f_equal _date_cache) in E. discriminate E.
Qed.

(* ================================================================== *)
(** * Currency resolution *)

(** ** Each tier returns its first match *)

Section FirstMatch.
Variables (A B : Type) (f : A -> option B).

Lemma first_match_spec (l : list A) (b : B) :
    first_match f l = Some b <->
    exists pre x post,
      l = pre ++ x :: post /\ (forall y, In y pre -> f y = None) /\ f x = Some b.
  Proof.
    induction l as [|a l IH]; cbn [first_match].
    - split; [discriminate|]. intros [[|? ?] [? [? [E _]]]]; discriminate E.
    - destruct (f a) as [b0|] eqn:Fa.
      + split.
        * intros [= <-]. exists [], a, l. repeat split; [intros ? []|exact Fa].
        * intros [[|a0 pre] [x [post [E [Hpre Hx]]]]]; cbn [app] in E.
          -- injection E as <- _. congruence.
          -- injection E as <- _. rewrite (Hpre a) in Fa by now left. discriminate.
      + rewrite IH. split.
        * intros [pre [x [post [-> [Hpre Hx]]]]].
          exists (a :: pre), x, post. repeat split; [|exact Hx].
          intros y [<-|H]; auto.
        * intros [[|a0 pre] [x [post [E [Hpre Hx]]]]]; cbn [app] in E.
          -- injection E as <- _. congruence.
          -- injection E as <- ->. exists pre, x, post. repeat split; auto.
             intros y H. apply Hpre. now right.
  Qed.
Lemma first_match_none (l : list A) :
  first_match f l = None <-> forall x, In x l -> f x = None.
Proof.
  induction l as [|a l IH]; cbn [first_match].
  - split; [intros _ x []|reflexivity].
  - destruct (f a) as [b|] eqn:Fa.
    + split; [discriminate|]. intros H. rewrite (H a) in Fa by now left.
      discriminate.
    + rewrite IH. split.
      * intros H x [<-|Hx]; auto.
      * intros H x Hx. apply H. now right.
Qed.
End FirstMatch.

Lemma by_alias_first_match (tokens : list str) :
  by_alias tokens = first_match (dict_get aliases) tokens.
Proof.
  induction tokens as [|t ts IH]; cbn [by_alias first_match]; [reflexivity|].
  now destruct (dict_get aliases t).
Qed.

Lemma by_code_first_match (rates : dict float) (tokens : list str) :
  by_code rates tokens
  = first_match (fun t => if dict_in (upper t) rates then Some (upper t) else None)
                tokens.
Proof.
  induction tokens as [|t ts IH]; cbn [by_code first_match]; [reflexivity|].
  now destruct (dict_in (upper t) rates).
Qed.

Lemma by_name_first_match (normalized : str) (items : dict str) :
  by_name normalized items
  = first_match (fun item : str * str =>
                   if contains (normalize_text (snd item)) normalized
                   then Some (fst item) else None)
                items.
Proof.
  induction items as [|[c n] items IH]; cbn [by_name first_match fst snd];
    [reflexivity|].
  now destruct (contains (normalize_text n) normalized).
Qed.

Lemma by_name_first (normalized : str) (items : dict str) (code : str) :
  by_name normalized items = Some code <->
  exists pre name post,
    items = pre ++ (code, name) :: post
    /\ (forall c n, In (c, n) pre -> contains (normalize_text n) normalized = false)
    /\ contains (normalize_text name) normalized = true.
Proof.
  rewrite by_name_first_match, first_match_spec. split.
  - intros [pre [[c n] [post [-> [Hpre Hx]]]]]. cbn [fst snd] in Hx.
    destruct (contains (normalize_text n) normalized) eqn:E; [|discriminate].
    injection Hx as ->. exists pre, n, post. repeat split; auto.
    intros c0 n0 Hin. specialize (Hpre _ Hin). cbn [fst snd] in Hpre.
    now destruct (contains (normalize_text n0) normalized).
  - intros [pre [name [post [-> [Hpre Hx]]]]].
    exists pre, (code, name), post. cbn [fst snd]. rewrite Hx. repeat split.
    intros [c0 n0] Hin. cbn [fst snd]. now rewrite (Hpre c0 n0 Hin).
Qed.

Lemma alias_words_resolve_themselves :
  forallb alias_resolves_itself aliases = true.
Proof. vm_compute. reflexivity. Qed.

Lemma alias_word_tokens (word code : str) :
  In (word, code) aliases ->
  by_alias (tokenize (normalize_text word)) = Some code.
Proof.
  intros Hin.
  pose proof (proj1 (forallb_forall _ _) alias_words_resolve_themselves _ Hin) as H.
  unfold alias_resolves_itself in H.
  destruct (tokenize (normalize_text word)) as [|token [|? ?]]; try discriminate.
  apply andb_true_iff in H. destruct H as [Ht Hc].
  apply str_eqb_eq in Ht. subst token. cbn [by_alias].
  destruct (dict_get aliases word) as [c|]; [|discriminate].
  apply str_eqb_eq in Hc. now subst.
Qed.

(** A fact about every token of a given phrase, checked token by token. *)
Ltac each_token :=
  let x := fresh "x" in
  let Hx := fresh "Hx" in
  intros x Hx; vm_compute in Hx;
  repeat (destruct Hx as [<-|Hx]; [reflexivity|]); contradiction.

(** C4. The tiers apply in a fixed order, each returning its first match.
    If some token is a key of the aliases, the answer is the code of the
    first such token, whatever the rates and the names hold.  If no token
    is an alias, the answer is the first token that, upper-cased, is a key
    of the rates, whatever the names hold.  If no token is an alias or a
    key of the rates, the answer is the code of the first entry of the
    names whose normalized name contains the normalized phrase, and nothing
    when there is none.  In particular, when the phrase has an alias token and a
    display name of another currency in the table contains the phrase, the
    name search would find an entry, yet the phrase resolves to the alias's
    code and not to the currency so named; every alias word, typed as it
    is, is such a phrase of one token. *)
Theorem resolution_precedence :
  forall (raw : str) (rates : dict float) (names : dict str),
    let normalized := normalize_text raw in
    let tokens := tokenize normalized in
    let no_alias := forall x, In x tokens -> dict_get aliases x = None in
    let no_code := forall x, In x tokens -> dict_in (upper x) rates = false in
    (forall pre token post code,
        tokens = pre ++ token :: post ->
        (forall x, In x pre -> dict_get aliases x = None) ->
        dict_get aliases token = Some code ->
        detect_currency_code raw rates names = Some code)
    /\ (no_alias ->
        forall pre token post,
          tokens = pre ++ token :: post ->
          (forall x, In x pre -> dict_in (upper x) rates = false) ->
          dict_in (upper token) rates = true ->
          detect_currency_code raw rates names = Some (upper token))
    /\ (no_alias -> no_code ->
        forall pre code name post,
          names = pre ++ (code, name) :: post ->
          (forall c n, In (c, n) pre ->
                       contains (normalize_text n) normalized = false) ->
          contains (normalize_text name) normalized = true ->
          detect_currency_code raw rates names = Some code)
    /\ (no_alias -> no_code ->
        (forall c n, In (c, n) names ->
                     contains (normalize_text n) normalized = false) ->
        detect_currency_code raw rates names = None)
    /\ (forall pre token post code other name,
          tokens = pre ++ token :: post ->
          (forall x, In x pre -> dict_get aliases x = None) ->
          dict_get aliases token = Some code ->
          In (other, name) names -> other <> code ->
          contains (normalize_text name) normalized = true ->
          detect_currency_code raw rates names = Some code
          /\ detect_currency_code raw rates names <> Some other
          /\ exists pre' c n post',
               names = pre' ++ (c, n) :: post'
               /\ (forall c0 n0, In (c0, n0) pre' ->
                                 contains (normalize_text n0) normalized = false)
               /\ contains (normalize_text n) normalized = true)
    /\ (forall code,
          In (raw, code) aliases ->
          tokens = [raw] /\ dict_get aliases raw = Some code).
Proof.
  intros raw rates names normalized tokens no_alias no_code.
  assert (A0 : no_alias -> by_alias tokens = None).
  { intros H. rewrite by_alias_first_match. now apply first_match_none. }
  assert (C0 : no_code -> by_code rates tokens = None).
  { intros H. rewrite by_code_first_match. apply first_match_none.
    intros x Hx. now rewrite (H x Hx). }
  unfold detect_currency_code. fold normalized. fold tokens.
  split; [|split; [|split; [|split; [|split]]]].
  - intros pre token post code Ht Hpre Hc.
    assert (E : by_alias tokens = Some code).
    { rewrite by_alias_first_match. apply first_match_spec.
      exists pre, token, post. auto. }
    now rewrite E.
  - intros Ha pre token post Ht Hpre Hc.
    assert (E : by_code rates tokens = Some (upper token)).
    { rewrite by_code_first_match. apply first_match_spec.
      exists pre, token, post. split; [exact Ht|]. split.
      - intros x Hx. now rewrite (Hpre x Hx).
      - now rewrite Hc. }
    now rewrite (A0 Ha), E.
  - intros Ha Hc pre code name post Hn Hpre Hm.
    rewrite (A0 Ha), (C0 Hc). apply by_name_first.
    exists pre, name, post. auto.
  - intros Ha Hc Hn. rewrite (A0 Ha), (C0 Hc).
    rewrite by_name_first_match. apply first_match_none.
    intros [c n] Hin. cbn [fst snd]. now rewrite (Hn c n Hin).
  - intros pre token post code other name Ht Hpre Halias Hin Hne Hm.
    assert (E : by_alias tokens = Some code).
    { rewrite by_alias_first_match. apply first_match_spec.
      exists pre, token, post. auto. }
    rewrite E.
    split; [reflexivity|]. split; [intros [= K]; congruence|].
    destruct (by_name normalized names) as [c|] eqn:B.
    + apply by_name_first in B. destruct B as [pre' [n [post' B]]].
      exists pre', c, n, post'. exact B.
    + exfalso. rewrite by_name_first_match in B.
      pose proof (proj1 (first_match_none _ _ _ _) B (other, name) Hin) as K.
      cbn [fst snd] in K. now rewrite Hm in K.
  - intros code Halias. unfold tokens, normalized.
    pose proof (proj1 (forallb_forall _ _) alias_words_resolve_themselves _ Halias)
      as H.
    unfold alias_resolves_itself in H.
    destruct (tokenize (normalize_text raw)) as [|token [|? ?]];
      try discriminate H.
    apply andb_true_iff in H. destruct H as [Ht Hc].
    apply str_eqb_eq in Ht. subst token.
    destruct (dict_get aliases raw) as [c|]; [|discriminate Hc].
    apply str_eqb_eq in Hc. now subst.
Qed.

Lemma resolution_precedence_witness :
  (* tier 1 although a name contains the word *)
  (contains (normalize_text (U "Австралийский доллар"))
            (normalize_text (U "доллар")) = true
   /\ detect_currency_code (U "доллар") (fst (fst sample_table))
                           (snd (fst sample_table)) = Some USD)
  (* tier 2 *)
  /\ (tokenize (normalize_text (U "Aud, please")) = [U "aud"; U "please"]
      /\ by_code (fst (fst sample_table)) [U "aud"; U "please"] = Some (U "AUD")
      /\ detect_currency_code (U "Aud, please") (fst (fst sample_table))
                              (snd (fst sample_table)) = Some (U "AUD"))
  (* tier 3 *)
  /\ (by_name (normalize_text (U "Казахстанских")) (snd (fst sample_table))
      = Some KZT
      /\ detect_currency_code (U "Казахстанских") (fst (fst sample_table))
                              (snd (fst sample_table)) = Some KZT)
  (* no tier *)
  /\ detect_currency_code (U "gold") (fst (fst sample_table))
                          (snd (fst sample_table)) = None.
Proof.
  pose (rates := fst (fst sample_table)). pose (names := snd (fst sample_table)).
  split; [|split; [|split]].
  - split; [reflexivity|].
    destruct (resolution_precedence (U "доллар") rates names)
      as [_ [_ [_ [_ [T5 _]]]]].
    apply (T5 [] (U "доллар") [] USD (U "AUD") (U "Австралийский доллар"));
      [reflexivity|intros x []|reflexivity|right; left; reflexivity
      |discriminate|reflexivity].
  - split; [reflexivity|]. split; [reflexivity|].
    destruct (resolution_precedence (U "Aud, please") rates names) as [_ [T2 _]].
    apply (T2 ltac:(each_token) [] (U "aud") [U "please"]);
      [reflexivity|intros x []|reflexivity].
  - split; [reflexivity|].
    destruct (resolution_precedence (U "Казахстанских") rates names)
      as [_ [_ [T3 _]]].
    apply (T3 ltac:(each_token) ltac:(each_token)
              [(RUB, U "Российский рубль"); (U "AUD", U "Австралийский доллар");
               (USD, U "Доллар США")]
              KZT (U "Казахстанских тенге") [(THB, U "Таиландских батов")]);
      [reflexivity| |reflexivity].
    intros c n [[= <- <-]|[[= <- <-]|[[= <- <-]|[]]]]; reflexivity.
  - destruct (resolution_precedence (U "gold") rates names) as [_ [_ [_ [T4 _]]]].
    apply (T4 ltac:(each_token) ltac:(each_token)).
    intros c n Hin. vm_compute in Hin.
    destruct Hin as [[= <- <-]|[[= <- <-]|[[= <- <-]|[[= <- <-]|[[= <- <-]|[]]]]]];
      reflexivity.
Defined.

(** ** Where a resolved code comes from *)

Lemma dict_get_value {V : Type} (d : dict V) (k : str) (v : V) :
  dict_get d k = Some v -> In v (List.map snd d).
Proof.
  induction d as [|[k' v'] d IH]; cbn [dict_get List.map snd]; [discriminate|].
  destruct (str_eqb k k').
  - intros [= <-]. now left.
  - intros H. right. now apply IH.
Qed.

Lemma alias_targets :
  forallb (fun c => existsb (str_eqb c) alias_codes) (List.map snd aliases) = true.
Proof. vm_compute. reflexivity. Qed.

Lemma by_alias_codes (tokens : list str) (code : str) :
  by_alias tokens = Some code -> In code alias_codes.
Proof.
  rewrite by_alias_first_match, first_match_spec.
  intros [pre [t [post [_ [_ Ht]]]]].
  apply dict_get_value in Ht.
  pose proof (proj1 (forallb_forall _ _) alias_targets _ Ht) as H.
  apply existsb_exists in H. destruct H as [c [Hin Hc]].
  apply str_eqb_eq in Hc. now subst.
Qed.

Lemma by_code_in (rates : dict float) (tokens : list str) (code : str) :
  by_code rates tokens = Some code -> dict_in code rates = true.
Proof.
  rewrite by_code_first_match, first_match_spec.
  intros [pre [t [post [_ [_ Ht]]]]].
  destruct (dict_in (upper t) rates) eqn:E; [|discriminate].
  now injection Ht as <-.
Qed.

Lemma by_name_in (normalized : str) (items : dict str) (code : str) :
  by_name normalized items = Some code -> In code (keys items).
Proof.
  rewrite by_name_first.
  intros [pre [name [post [-> _]]]].
  unfold keys. rewrite map_app. apply in_or_app. right. now left.
Qed.

(** C5, as the code has it.  On a table the parser built, a code the
    resolver returns is a key of the rates whenever it was found by tier 2 or
    tier 3, and whenever it is RUB; a code found by tier 1 is the code of an
    alias, and of these USD, KZT and THB are in the table only if the feed
    quoted them. *)
Theorem resolved_code_quoted_unless_alias :
  forall (now : datetime) (root : Element) (rates : dict float)
         (names : dict str) (date : datetime) (raw code : str),
    build_tables now root = Ok (rates, names, date) ->
    detect_currency_code raw rates names = Some code ->
    dict_in code rates = true
    \/ (by_alias (tokenize (normalize_text raw)) = Some code
        /\ In code [USD; KZT; THB]).
Proof.
  intros now root rates names date raw code Hb.
  destruct (build_tables_inv _ _ _ _ _ Hb) as [_ Hl].
  destruct (valute_loop_keys _ _ Hl) as [Hk [others Ho]]. cbn [fst snd] in *.
  unfold detect_currency_code.
  destruct (by_alias (tokenize (normalize_text raw))) as [c|] eqn:A.
  - intros [= ->]. pose proof (by_alias_codes _ _ A) as Hc.
    destruct Hc as [<-|Hc].
    + left. apply dict_in_keys. rewrite Hk, Ho. now left.
    + right. split; [reflexivity|exact Hc].
  - destruct (by_code rates (tokenize (normalize_text raw))) as [c|] eqn:B.
    + intros [= ->]. left. eapply by_code_in; eauto.
    + intros H. left. apply by_name_in in H.
      apply dict_in_keys. now rewrite Hk.
Qed.

Lemma resolved_code_quoted_unless_alias_witness :
  build_tables (datetime_now sample_env) sample_feed = Ok sample_table
  /\ detect_currency_code (U "австралийский") (fst (fst sample_table))
                          (snd (fst sample_table)) = Some (U "AUD")
  /\ (dict_in (U "AUD") (fst (fst sample_table)) = true
      \/ (by_alias (tokenize (normalize_text (U "австралийский"))) = Some (U "AUD")
          /\ In (U "AUD") [USD; KZT; THB])).
Proof.
  split; [reflexivity|]. split; [reflexivity|].
  apply (resolved_code_quoted_unless_alias (datetime_now sample_env) sample_feed
           (fst (fst sample_table)) (snd (fst sample_table)) (snd sample_table));
    reflexivity.
Defined.

(** C5 fails as stated: on the table of a feed without records the phrase
    "usd" resolves, by alias, to USD, which is not a key of the rates. *)
Lemma alias_code_may_be_unquoted :
  build_tables (datetime_now sample_env) feed_empty = Ok empty_table
  /\ detect_currency_code (U "usd") (fst (fst empty_table)) (snd (fst empty_table))
     = Some USD
  /\ dict_in USD (fst (fst empty_table)) = false.
Proof. repeat split. Qed.

(** ** The order of the name search *)

(** C10, as the code has it.  The parser puts RUB first in the table of
    names.  For a phrase none of whose tokens is an alias or, upper-cased, a
    key of the rates, the resolver returns the code of the first entry, in
    insertion order, whose normalized name contains the normalized phrase;
    so when RUB still has its display name and that name contains the
    phrase, the answer is RUB. *)
Theorem name_search_follows_insertion_order :
  forall (now : datetime) (root : Element) (rates : dict float)
         (names : dict str) (date : datetime) (raw : str),
    build_tables now root = Ok (rates, names, date) ->
    by_alias (tokenize (normalize_text raw)) = None ->
    by_code rates (tokenize (normalize_text raw)) = None ->
    (exists rub_name others, names = (RUB, rub_name) :: others)
    /\ (forall code,
          detect_currency_code raw rates names = Some code <->
          exists pre name post,
            names = pre ++ (code, name) :: post
            /\ (forall c n, In (c, n) pre ->
                            contains (normalize_text n) (normalize_text raw) = false)
            /\ contains (normalize_text name) (normalize_text raw) = true)
    /\ (dict_get names RUB = Some (U "Российский рубль") ->
        contains (normalize_text (U "Российский рубль")) (normalize_text raw) = true ->
        detect_currency_code raw rates names = Some RUB).
Proof.
  intros now root rates names date raw Hb A B.
  destruct (build_tables_inv _ _ _ _ _ Hb) as [_ Hl].
  destruct (valute_loop_keys _ _ Hl) as [_ [others Ho]]. cbn [fst snd] in *.
  assert (Hd : detect_currency_code raw rates names
               = by_name (normalize_text raw) names).
  { unfold detect_currency_code. now rewrite A, B. }
  destruct names as [|[k0 rub_name] rest]; [discriminate Ho|].
  cbn [keys List.map fst] in Ho. injection Ho as -> _.
  split; [eauto|]. split.
  - intros code. rewrite Hd. apply by_name_first.
  - intros Hn Hc. rewrite Hd. cbn [dict_get] in Hn. rewrite str_eqb_refl in Hn.
    injection Hn as ->. cbn [by_name]. now rewrite Hc.
Qed.

Lemma name_search_follows_insertion_order_witness :
  build_tables (datetime_now sample_env) sample_feed = Ok sample_table
  /\ by_alias (tokenize (normalize_text (U "Ский"))) = None
  /\ by_code (fst (fst sample_table)) (tokenize (normalize_text (U "Ский"))) = None
  /\ contains (normalize_text (U "Австралийский доллар"))
              (normalize_text (U "Ский")) = true
  /\ detect_currency_code (U "Ский") (fst (fst sample_table))
                          (snd (fst sample_table)) = Some RUB.
Proof.
  split; [reflexivity|]. split; [reflexivity|]. split; [reflexivity|].
  split; [reflexivity|].
  destruct (name_search_follows_insertion_order (datetime_now sample_env)
              sample_feed (fst (fst sample_table)) (snd (fst sample_table))
              (snd sample_table) (U "Ский") eq_refl eq_refl eq_refl) as [_ [_ H]].
  apply H; reflexivity.
Defined.

(** C10 fails as stated: "доллар" occurs in the names of AUD and of USD, AUD
    was inserted first and is what the name search alone would give, yet the
    resolver answers USD, by alias. *)
Lemma alias_overrides_earliest_name :
  build_tables (datetime_now sample_env) sample_feed = Ok sample_table
  /\ keys (snd (fst sample_table)) = [RUB; U "AUD"; USD; KZT; THB]
  /\ contains (normalize_text (U "Австралийский доллар"))
              (normalize_text (U "доллар")) = true
  /\ contains (normalize_text (U "Доллар США")) (normalize_text (U "доллар")) = true
  /\ by_name (normalize_text (U "доллар")) (snd (fst sample_table)) = Some (U "AUD")
  /\ detect_currency_code (U "доллар") (fst (fst sample_table))
                          (snd (fst sample_table)) = Some USD.
Proof. repeat split. Qed.

(* ================================================================== *)
(** * Text extraction *)

(** C6, as the code has it.  With the tokens being the white-space separated
    pieces of the text after its commas are turned into dots: the amount is
    missing exactly when there is no first token that [float()] accepts; the
    currency is missing exactly when the first token is accepted and no token
    follows; otherwise the result is that amount with the remaining tokens
    joined by single spaces.  What [float()] accepts includes [inf],
    [infinity] and [nan]. *)
Theorem extraction_outcomes :
  forall (text : str),
    let tokens := split (replace 44 46 text) in
    let parsed := parse_amount_and_currency text in
    (missing_amount parsed <-> amount_of tokens = None)
    /\ (missing_currency parsed <-> amount_of tokens <> None /\ tl tokens = [])
    /\ (forall amount,
          amount_of tokens = Some amount -> tl tokens <> [] ->
          parsed = (Some amount, Some (join [32] (tl tokens)))).
Proof.
  intros text tokens parsed. subst tokens parsed.
  unfold parse_amount_and_currency, missing_amount, missing_currency, amount_of.
  rewrite split_strip.
  destruct (split (replace 44 46 text)) as [|first rest]; cbn [fst snd tl].
  - intuition congruence.
  - destruct (float_of_str first) as [amount|e]; cbn [fst snd].
    + destruct rest as [|second rest]; cbn [fst snd]; intuition congruence.
    + intuition congruence.
Qed.

Lemma extraction_outcomes_witness :
  amount_of (split (replace 44 46 (U " 2500,50  Доллар   США "))) = Some (float_of_ratio false 5001 2)
  /\ tl (split (replace 44 46 (U " 2500,50  Доллар   США "))) <> []
  /\ parse_amount_and_currency (U " 2500,50  Доллар   США ")
     = (Some (float_of_ratio false 5001 2), Some (U "Доллар США")).
Proof.
  split; [reflexivity|]. split; [discriminate|].
  destruct (extraction_outcomes (U " 2500,50  Доллар   США ")) as [_ [_ H]].
  apply (H (float_of_ratio false 5001 2)).
  - reflexivity.
  - discriminate.
Defined.

(** C6 fails as stated: "nan" does not denote a real number, yet it is
    taken as the amount and the amount is not reported missing. *)
Lemma nan_is_taken_as_amount :
  split (replace 44 46 (U "nan usd")) = [U "nan"; U "usd"]
  /\ parse_amount_and_currency (U "nan usd") = (Some S754_nan, Some (U "usd"))
  /\ is_real S754_nan = false
  /\ ~ missing_amount (parse_amount_and_currency (U "nan usd")).
Proof.
  split; [reflexivity|]. split; [reflexivity|]. split; [reflexivity|].
  unfold missing_amount. discriminate.
Qed.

(** An infinity is taken as the amount too. *)
Example infinite_amount_is_accepted :
  parse_amount_and_currency (U "-Infinity rub")
  = (Some (S754_infinity true), Some (U "rub")).
Proof. reflexivity. Qed.

Example extraction_scenarios :
  missing_currency (parse_amount_and_currency (U "100"))
  /\ missing_amount (parse_amount_and_currency (U "abc usd"))
  /\ missing_amount (parse_amount_and_currency (U "   ")).
Proof. repeat split. discriminate. Qed.

(* ================================================================== *)
(** * Conversion *)

(** Once the amount, the currency and the three target rates are there, the
    handler divides: a target rate of zero makes it raise, and the reply
    for incomplete rates is not sent. *)
Lemma zero_target_rate_raises
      (txt raw code : str) (w : env) (g g' : globals) (n : nat)
      (amount rate usd_rate kzt_rate thb_rate : float)
      (rates : dict float) (names : dict str) (date : datetime) :
  truthy txt = true ->
  parse_amount_and_currency (strip txt) = (Some amount, Some raw) ->
  fetch_cbr_rates false w g = (Ok (rates, names, date), g', n) ->
  detect_currency_code raw rates names = Some code ->
  dict_get rates code = Some rate ->
  dict_get rates USD = Some usd_rate ->
  dict_get rates KZT = Some kzt_rate ->
  dict_get rates THB = Some thb_rate ->
  is_zero usd_rate || is_zero kzt_rate || is_zero thb_rate = true ->
  handle_convert (Some txt) w g = (Raise ZeroDivisionError, g', n).
Proof.
  intros Ht Hp Hf Hd Hr Hu Hk Hb Hz.
  unfold handle_convert. rewrite Ht. cbn [negb]. rewrite Hp, Hf, Hd, Hr.
  fold USD KZT THB. rewrite Hu, Hk, Hb.
  unfold truediv.
  destruct (is_zero usd_rate); [reflexivity|]. cbn [bind].
  destruct (is_zero kzt_rate); [reflexivity|]. cbn [bind].
  destruct (is_zero thb_rate); [reflexivity|]. discriminate Hz.
Qed.

(** C9 at a failing input: the feed quotes the dollar at 0, the message is
    "100 rub"; the handler raises [ZeroDivisionError] where the claim asks
    for the reply [IncompleteRates]. *)
Theorem zero_rate_division_is_uncaught :
  dict_get (fst (fst zero_value_table)) USD = Some (S754_zero false)
  /\ handle_convert (Some (U "100 rub")) zero_value_env initial_globals
     = (Raise ZeroDivisionError, zero_value_globals, 1%nat)
  /\ handle_convert (Some (U "100 rub")) zero_value_env initial_globals
     <> (Ok IncompleteRates, zero_value_globals, 1%nat).
Proof.
  split; [reflexivity|]. split; [vm_compute; reflexivity|].
  vm_compute. discriminate.
Qed.

(** A feed that quotes the dollar alone: the rates of KZT and THB are
    missing, and that is what the reply says. *)
Example missing_rate_is_reported :
  fst (fst (handle_convert (Some (U "100 rub"))
              (at_time 1700000000 (serving feed_no_date)) initial_globals))
  = Ok IncompleteRates.
Proof. reflexivity. Qed.

(** The scenario of the design: "100 usd" at 95 roubles to the dollar. *)
Example convert_100_usd :
  exists date usd kzt thb,
    fst (fst (handle_convert (Some (U "100 usd")) sample_env initial_globals))
    = Ok (Converted date (float_of_Z 100) USD (float_of_Z 9500) usd kzt thb).
Proof. do 4 eexists. vm_compute. reflexivity. Qed.

(* ================================================================== *)
(** * Further properties of the parser and the cache *)

Lemma NoDup_snoc {A : Type} (l : list A) (a : A) :
  NoDup l -> ~ In a l -> NoDup (l ++ [a]).
Proof.
  induction l as [|b l IH]; simpl; intros Hnd Hin.
  - constructor; [tauto|constructor].
  - inversion Hnd as [|? ? Hb Hl]; subst. constructor.
    + rewrite in_app_iff. simpl. intros [H|[H|[]]]; [tauto|]. subst. tauto.
    + apply IH; tauto.
Qed.

(** What a turn of the loop does, by whether the record is accepted. *)
Lemma valute_step_accepted (acc acc' : dict float * dict str) (v : Element) :
  valute_step acc v = Ok acc' ->
  if accepted v
  then exists rate,
         quoted v = Ok rate
         /\ acc' = (dict_set (fst acc) (char_code v) rate,
                    dict_set (snd acc) (char_code v)
                             (findtext v (U "Name") (char_code v)))
  else acc' = acc.
Proof.
  unfold valute_step, accepted, quoted, char_code. destruct acc as [rates names].
  destruct (truthy (upper (findtext v (U "CharCode") []))); cbn [negb andb].
  - destruct (rub_per_unit _ _) as [rate|[]]; cbn [raises negb];
      intros [= <-]; eauto.
  - now intros [= <-].
Qed.

(** X1. In the tables the parser returns, rates and names have the same keys
    in the same order, no key twice, RUB first; and every other key is the
    upper-cased code of a feed record the loop accepted. *)
Theorem parsed_tables_share_keys :
  forall (now : datetime) (root : Element) (rates : dict float)
         (names : dict str) (date : datetime),
    build_tables now root = Ok (rates, names, date) ->
    keys rates = keys names
    /\ NoDup (keys rates)
    /\ (exists others, keys rates = RUB :: others)
    /\ (forall k, In k (keys rates) <->
                  k = RUB \/ exists v, In v (findall root (U "Valute"))
                                       /\ accepted v = true /\ char_code v = k).
Proof.
  intros now root rates names date H.
  apply build_tables_inv in H. destruct H as [_ H].
  destruct (valute_loop_keys _ _ H) as [Hk [others Ho]]. cbn [fst snd] in *.
  split; [exact Hk|]. split; [|split; [exists others; congruence|]].
  - pose (P := fun acc : dict float * dict str => NoDup (keys (fst acc))).
    change (P (rates, names)).
    apply (valute_loop_invariant P (findall root (U "Valute")))
      with (acc := (initial_rates, initial_names)); [| |exact H].
    + intros acc v acc1 _ HP Hs. unfold P in *.
      destruct (valute_step_cases _ _ _ Hs) as [->|[rate [_ [_ ->]]]]; [exact HP|].
      cbn [fst]. rewrite keys_dict_set.
      destruct (dict_in (char_code v) (fst acc)) eqn:E; [exact HP|].
      apply NoDup_snoc; [exact HP|]. intros Hin.
      apply dict_in_keys in Hin. congruence.
    + unfold P. cbn. constructor; [tauto|constructor].
  - pose (P := fun (seen : list Element) (acc : dict float * dict str) =>
                 forall k, In k (keys (fst acc)) <->
                           k = RUB \/ exists v, In v seen /\ accepted v = true
                                                /\ char_code v = k).
    assert (G : forall vs seen acc acc',
               P seen acc -> valute_loop acc vs = Ok acc' -> P (seen ++ vs) acc').
    { induction vs as [|v vs IH]; intros seen acc acc' HP; cbn [valute_loop].
      - intros [= <-]. now rewrite app_nil_r.
      - destruct (valute_step acc v) as [acc1|e] eqn:E; cbn [bind]; [|discriminate].
        intros Hl.
        replace (seen ++ v :: vs) with ((seen ++ [v]) ++ vs)
          by (rewrite <- app_assoc; reflexivity).
        apply (IH (seen ++ [v]) acc1 acc'); [|exact Hl].
        pose proof (valute_step_accepted _ _ _ E) as Hs.
        intros k. destruct (accepted v) eqn:A.
        + destruct Hs as [rate [_ ->]]. cbn [fst].
          rewrite keys_dict_set.
          assert (Hin : In k (if dict_in (char_code v) (fst acc)
                              then keys (fst acc) else keys (fst acc) ++ [char_code v])
                        <-> In k (keys (fst acc)) \/ k = char_code v).
          { destruct (dict_in (char_code v) (fst acc)) eqn:D.
            - split; [tauto|]. intros [H0| ->]; [exact H0|].
              now apply dict_in_keys.
            - rewrite in_app_iff. simpl. intuition congruence. }
          rewrite Hin, (HP k). split.
          * intros [[->|[u [Hu [Au Cu]]]]| ->]; [now left| |].
            -- right. exists u. rewrite in_app_iff. tauto.
            -- right. exists v. rewrite in_app_iff. simpl. tauto.
          * intros [->|[u [Hu [Au Cu]]]]; [now left; left|].
            apply in_app_iff in Hu. destruct Hu as [Hu|[<-|[]]].
            -- left. right. eauto.
            -- now right.
        + subst acc1. rewrite (HP k). split.
          * intros [->|[u [Hu [Au Cu]]]]; [now left|].
            right. exists u. rewrite in_app_iff. tauto.
          * intros [->|[u [Hu [Au Cu]]]]; [now left|].
            apply in_app_iff in Hu. destruct Hu as [Hu|[<-|[]]]; [|congruence].
            right. eauto. }
    apply (G (findall root (U "Valute")) [] (initial_rates, initial_names)
             (rates, names)); [|exact H].
    intros k. cbn. split.
    + intros [<-|[]]. now left.
    + intros [->|[u [[] _]]]. now left.
Qed.

Lemma parsed_tables_share_keys_witness :
  build_tables (datetime_now sample_env) sample_feed = Ok sample_table
  /\ keys (fst (fst sample_table)) = keys (snd (fst sample_table))
  /\ NoDup (keys (fst (fst sample_table))).
Proof.
  split; [reflexivity|].
  destruct (parsed_tables_share_keys (datetime_now sample_env) sample_feed
              (fst (fst sample_table)) (snd (fst sample_table))
              (snd sample_table) eq_refl) as [H1 [H2 _]].
  split; [exact H1|exact H2].
Defined.

Lemma valute_loop_latest (code : str) (vs : list Element)
      (acc acc' : dict float * dict str) :
  valute_loop acc vs = Ok acc' ->
  match latest code vs with
  | Some v =>
    exists rate,
      quoted v = Ok rate
      /\ dict_get (fst acc') code = Some rate
      /\ dict_get (snd acc') code = Some (findtext v (U "Name") code)
  | None =>
    dict_get (fst acc') code = dict_get (fst acc) code
    /\ dict_get (snd acc') code = dict_get (snd acc) code
  end.
Proof.
  revert acc. induction vs as [|v vs IH]; intros acc; cbn [valute_loop latest].
  - intros [= ->]. tauto.
  - destruct (valute_step acc v) as [acc1|e] eqn:E; cbn [bind]; [|discriminate].
    intros Hl. specialize (IH acc1 Hl).
    destruct (latest code vs) as [u|]; [exact IH|].
    destruct IH as [Hr Hn]. rewrite Hr, Hn.
    pose proof (valute_step_accepted _ _ _ E) as Hs.
    destruct (accepted v) eqn:A; cbn [andb].
    + destruct Hs as [rate [Q ->]]. cbn [fst snd].
      destruct (str_eqb (char_code v) code) eqn:C.
      * apply str_eqb_eq in C. subst code. exists rate.
        now rewrite !dict_get_set_same.
      * apply str_eqb_neq in C.
        rewrite !dict_get_set_other by congruence. tauto.
    + subst acc1. tauto.
Qed.

(** X2. When several records of the feed are stored under one code, the
    table holds the rate and the name of the last of them; the name is the
    code itself when that record has no [Name] element.  A code no record
    was stored under has what the table started with. *)
Theorem last_record_wins :
  forall (now : datetime) (root : Element) (rates : dict float)
         (names : dict str) (date : datetime) (code : str),
    build_tables now root = Ok (rates, names, date) ->
    match latest code (findall root (U "Valute")) with
    | Some v =>
      exists rate,
        quoted v = Ok rate
        /\ dict_get rates code = Some rate
        /\ dict_get names code = Some (findtext v (U "Name") code)
    | None =>
      dict_get rates code = dict_get initial_rates code
      /\ dict_get names code = dict_get initial_names code
    end.
Proof.
  intros now root rates names date code H.
  apply build_tables_inv in H. destruct H as [_ H].
  exact (valute_loop_latest code _ _ _ H).
Qed.

Lemma last_record_wins_witness :
  exists rates names date,
    build_tables (datetime_now sample_env) feed_requoted = Ok (rates, names, date)
    /\ dict_get rates USD = Some (float_of_ratio false 193 2)
    /\ dict_get names USD = Some USD
    /\ keys rates = [RUB; USD; KZT].
Proof.
  destruct (build_tables (datetime_now sample_env) feed_requoted)
    as [[[rates names] date]|e] eqn:E; [|discriminate E].
  exists rates, names, date. split; [reflexivity|].
  pose proof (last_record_wins _ _ _ _ _ USD E) as H.
  vm_compute in E. injection E as <- <- <-.
  vm_compute in H. destruct H as [rate [Q [Hr Hn]]].
  injection Q as <-.
  split; [exact Hr|]. split; [exact Hn|reflexivity].
Defined.

(** ** Records that are skipped and records that are stored *)

Lemma truediv_int_raises (x : float) (n : Z) (e : exn) :
  truediv_int x n = Raise e -> e = ZeroDivisionError \/ e = OverflowError.
Proof.
  unfold truediv_int, float_of_int, truediv.
  destruct (float_of_Z n) as [s|s| |s m k]; cbn [bind is_zero];
    intros [= <-]; auto.
Qed.

(** A record that is not bad either gets its rate or stops the parse with
    an exception the loop does not catch. *)
Lemma not_bad_record (v : Element) :
  bad_record v = false ->
  truthy (char_code v) = true
  /\ ((exists rate, quoted v = Ok rate)
      \/ exists e, quoted v = Raise e
                   /\ (e = ZeroDivisionError \/ e = OverflowError)).
Proof.
  unfold bad_record, quoted, rub_per_unit. intros H.
  apply orb_false_iff in H. destruct H as [H Hv].
  apply orb_false_iff in H. destruct H as [Hc Hn].
  apply negb_false_iff in Hc. split; [exact Hc|].
  destruct (int (findtext v (U "Nominal") (U "1"))) as [n|]; [|discriminate Hn].
  destruct (float_of_str (replace 44 46 (findtext v (U "Value") (U "0"))))
    as [x|]; [|discriminate Hv].
  cbn [bind]. destruct (truediv_int x n) as [rate|e] eqn:E; [eauto|].
  right. exists e. split; [reflexivity|]. exact (truediv_int_raises _ _ _ E).
Qed.

Lemma accepted_not_bad (v : Element) : accepted v = true -> bad_record v = false.
Proof.
  unfold accepted, bad_record, quoted, rub_per_unit. intros H.
  apply andb_true_iff in H. destruct H as [Hc Hq]. rewrite Hc. cbn [negb orb].
  destruct (int (findtext v (U "Nominal") (U "1"))) as [n|]; [|discriminate Hq].
  destruct (float_of_str (replace 44 46 (findtext v (U "Value") (U "0"))))
    as [x|]; [reflexivity|discriminate Hq].
Qed.

(** When the loop ends with tables, it has accepted every record that is
    not bad. *)
Lemma valute_loop_accepts (vs : list Element) :
  forall acc acc',
    valute_loop acc vs = Ok acc' ->
    forall v, In v vs -> bad_record v = false -> accepted v = true.
Proof.
  induction vs as [|u vs IH]; intros acc acc'; cbn [valute_loop]; [intros _ v []|].
  destruct (valute_step acc u) as [acc1|e] eqn:E; cbn [bind]; [|discriminate].
  intros Hl v [<-|Hin] Hb; [|exact (IH _ _ Hl v Hin Hb)].
  destruct (not_bad_record u Hb) as [Hc [[rate Q]|[e [Q He]]]].
  - unfold accepted. now rewrite Hc, Q.
  - exfalso. unfold valute_step in E. destruct acc as [rates names].
    fold (char_code u) in E. rewrite Hc in E. cbn [negb] in E.
    unfold quoted in Q. rewrite Q in E.
    destruct He as [-> | ->]; discriminate E.
Qed.

Lemma latest_inv (code : str) (vs : list Element) (u : Element) :
  latest code vs = Some u ->
  In u vs /\ accepted u = true /\ char_code u = code.
Proof.
  induction vs as [|v vs IH]; cbn [latest]; [discriminate|].
  destruct (latest code vs) as [w|].
  - intros [= ->]. destruct (IH eq_refl) as [H1 H2]. split; [now right|exact H2].
  - destruct (accepted v) eqn:A; cbn [andb]; [|discriminate].
    destruct (str_eqb (char_code v) code) eqn:C; [|discriminate].
    intros [= <-]. apply str_eqb_eq in C. split; [now left|]. auto.
Qed.

Lemma latest_exists (vs : list Element) (v : Element) :
  In v vs -> accepted v = true -> exists u, latest (char_code v) vs = Some u.
Proof.
  induction vs as [|w vs IH]; [intros []|]. cbn [latest].
  intros [->|Hin] A.
  - destruct (latest (char_code v) vs); [eauto|].
    rewrite A, str_eqb_refl. cbn [andb]. eauto.
  - destruct (IH Hin A) as [u ->]. eauto.
Qed.

(** C3, as the code has it.  A [Valute] record with an empty code, a nominal
    [int()] rejects or a value [float()] rejects is skipped on its own: the
    parser gives what it gives on the feed without that record, so no such
    record makes the parse fail.  When the parser returns tables, every
    other record is in them under its upper-cased code, a code that only
    skipped records carry is not in them, and every rate in them is the
    initial one of RUB or that of a record that was not skipped.  Tables are
    returned when the date is usable and each remaining record gets its
    rate. *)
Theorem bad_records_are_skipped :
  forall (now : datetime) (root : Element),
    build_tables now root = build_tables now (without_bad_records root)
    /\ (forall tg attrs txt pre v post,
          root = Elem tg attrs txt (pre ++ v :: post) ->
          is_valute v = true -> bad_record v = true ->
          build_tables now root = build_tables now (Elem tg attrs txt (pre ++ post)))
    /\ (forall rates names date,
          build_tables now root = Ok (rates, names, date) ->
          (forall v, In v (findall root (U "Valute")) -> bad_record v = false ->
             exists rate, quoted v = Ok rate
                          /\ dict_in (char_code v) rates = true
                          /\ dict_in (char_code v) names = true)
          /\ (forall code,
                code <> RUB ->
                (forall v, In v (findall root (U "Valute")) ->
                           char_code v = code -> bad_record v = true) ->
                dict_get rates code = None /\ dict_get names code = None)
          /\ (forall code rate,
                dict_get rates code = Some rate ->
                (code = RUB /\ rate = one)
                \/ exists v, In v (findall root (U "Valute"))
                             /\ bad_record v = false
                             /\ char_code v = code /\ quoted v = Ok rate))
    /\ ((exists date, publication_date now root = Ok date) ->
        (forall v, In v (findall root (U "Valute")) ->
                   bad_record v = true \/ exists rate, quoted v = Ok rate) ->
        exists t, build_tables now root = Ok t
                  /\ build_tables now (without_bad_records root) = Ok t).
Proof.
  intros now root.
  assert (E : build_tables now root = build_tables now (without_bad_records root)).
  { unfold build_tables.
    rewrite findall_without_bad_records, valute_loop_skip_bad.
    reflexivity. }
  split; [exact E|]. split; [|split].
  - intros tg attrs txt pre v post -> Tv Bv.
    unfold build_tables, publication_date, get, findall. simpl.
    rewrite !filter_app. simpl. unfold is_valute in Tv. rewrite Tv.
    rewrite !valute_loop_app. simpl.
    destruct (valute_loop _ (filter _ pre)) as [acc|e]; simpl; [|reflexivity].
    now rewrite (valute_step_bad acc v Bv).
  - intros rates names date H.
    apply build_tables_inv in H. destruct H as [_ H].
    split; [|split].
    + intros v Hin Hb.
      pose proof (valute_loop_accepts _ _ _ H v Hin Hb) as A.
      destruct (latest_exists _ v Hin A) as [u Hu].
      pose proof (valute_loop_latest (char_code v) _ _ _ H) as L.
      rewrite Hu in L. destruct L as [r [_ [Lr Ln]]]. cbn [fst snd] in *.
      destruct (not_bad_record v Hb) as [_ [[rate Q]|[e [Q _]]]].
      * exists rate. unfold dict_in. now rewrite Lr, Ln.
      * unfold accepted in A. rewrite Q in A.
        apply andb_true_iff in A. destruct A as [_ A]. discriminate A.
    + intros code Hne Hall.
      pose proof (valute_loop_latest code _ _ _ H) as L.
      destruct (latest code (findall root (U "Valute"))) as [u|] eqn:Hu.
      * destruct (latest_inv _ _ _ Hu) as [Hin [A C]].
        apply accepted_not_bad in A. rewrite (Hall u Hin C) in A. discriminate A.
      * cbn [fst snd] in L. destruct L as [-> ->].
        unfold initial_rates, initial_names. cbn [dict_get].
        fold RUB. apply str_eqb_neq in Hne. now rewrite Hne.
    + intros code rate Hr.
      pose proof (valute_loop_latest code _ _ _ H) as L.
      destruct (latest code (findall root (U "Valute"))) as [u|] eqn:Hu.
      * destruct (latest_inv _ _ _ Hu) as [Hin [A C]].
        destruct L as [r [Q [Lr _]]]. cbn [fst] in Lr.
        right. exists u. rewrite Hr in Lr. injection Lr as ->.
        repeat split; auto. now apply accepted_not_bad.
      * cbn [fst snd] in L. destruct L as [L _]. rewrite Hr in L.
        unfold initial_rates in L. cbn [dict_get] in L. fold RUB in L.
        destruct (str_eqb code RUB) eqn:C; [|discriminate L].
        apply str_eqb_eq in C. injection L as <-. now left.
  - intros [date Hd] Hall. rewrite <- E. unfold build_tables.
    rewrite Hd. cbn [bind].
    destruct (valute_loop_returns _ Hall (initial_rates, initial_names)) as [acc' ->].
    simpl. eauto.
Qed.

Lemma bad_records_are_skipped_witness :
  exists rates names date,
    build_tables (datetime_now sample_env) feed_with_bad_records
    = Ok (rates, names, date)
    /\ keys rates = [RUB; USD]
    /\ dict_get rates USD = Some (float_of_Z 95)
    /\ dict_get rates KZT = None
    /\ dict_get rates THB = None.
Proof.
  destruct (build_tables (datetime_now sample_env) feed_with_bad_records)
    as [[[rates names] date]|e] eqn:E; [|discriminate E].
  destruct (bad_records_are_skipped (datetime_now sample_env) feed_with_bad_records)
    as [_ [_ [S _]]].
  destruct (S rates names date E) as [_ [Skip _]].
  assert (K : dict_get rates KZT = None).
  { apply (Skip KZT); [discriminate|].
    intros v Hin. vm_compute in Hin.
    destruct Hin as [<-|[<-|[<-|[<-|[]]]]]; try reflexivity; discriminate. }
  assert (T : dict_get rates THB = None).
  { apply (Skip THB); [discriminate|].
    intros v Hin. vm_compute in Hin.
    destruct Hin as [<-|[<-|[<-|[<-|[]]]]]; try reflexivity; discriminate. }
  vm_compute in E. injection E as <- <- <-.
  do 3 eexists. split; [reflexivity|]. split; [reflexivity|].
  split; [reflexivity|]. split; [exact K|exact T].
Defined.

(** C3 fails as stated: a value of [nan] is not a number, yet the record is
    not skipped: [float()] accepts it and the table holds the rate NaN for
    the dollar, which the feed without that record does not quote. *)
Lemma nan_value_is_not_skipped :
  exists rates names date,
    build_tables (datetime_now sample_env) feed_nan_value = Ok (rates, names, date)
    /\ dict_get rates USD = Some S754_nan
    /\ is_real S754_nan = false
    /\ exists rates0 names0,
         build_tables (datetime_now sample_env) feed_empty
         = Ok (rates0, names0, date)
         /\ dict_get rates0 USD = None.
Proof.
  do 3 eexists. split; [vm_compute; reflexivity|].
  split; [reflexivity|]. split; [reflexivity|].
  do 2 eexists. split; [vm_compute; reflexivity|]. reflexivity.
Qed.

(** ** The states of the cache *)

Lemma download_inv (w : env) (t : table) :
  download w = Ok t ->
  exists root, build_tables (datetime_now w) root = Ok t.
Proof.
  unfold download.
  destruct (requests_get w) as [resp|e]; cbn [bind]; [|discriminate].
  destruct (raise_for_status resp) as [[]|e]; cbn [bind]; [|discriminate].
  destruct (fromstring (content resp)) as [root|e]; cbn [bind]; [|discriminate].
  eauto.
Qed.

(** The three ways a call can go: served from the cache, refreshed, failed. *)
Lemma fetch_cases (force : bool) (w : env) (g : globals) :
  (exists t, cached force (time_time w) g = Some t
             /\ fetch_cbr_rates force w g = (Ok t, g, 0%nat))
  \/ (exists rates names date,
        cached force (time_time w) g = None
        /\ download w = Ok (rates, names, date)
        /\ fetch_cbr_rates force w g
           = (Ok (rates, names, date),
              mkglobals (Some rates) (Some names) (Some date) (Some (time_time w)),
              1%nat))
  \/ (exists e, cached force (time_time w) g = None
                /\ download w = Raise e
                /\ fetch_cbr_rates force w g = (Raise e, g, 1%nat)).
Proof.
  unfold fetch_cbr_rates.
  destruct (cached force (time_time w) g) as [t|]; [left; eauto|].
  destruct (download w) as [[[rates names] date]|e].
  - right. left. exists rates, names, date. auto.
  - right. right. eauto.
Qed.

Lemma cached_inv (force : bool) (now_ts : float) (g : globals) (t : table) :
  cached force now_ts g = Some t ->
  force = false
  /\ exists last,
       g = mkglobals (Some (fst (fst t))) (Some (snd (fst t))) (Some (snd t))
                     (Some last)
       /\ flt (fsub now_ts last) (float_of_Z CACHE_TTL_SECONDS) = true.
Proof.
  unfold cached. destruct force; [discriminate|].
  destruct g as [[r|] [n|] [d|] [l|]]; cbn; try discriminate.
  destruct (flt _ _) eqn:A; [|discriminate].
  intros [= <-]. split; [reflexivity|]. exists l. auto.
Qed.

Lemma fetch_keeps_coherent (force : bool) (w : env) (g : globals) :
  coherent g -> coherent (snd (fst (fetch_cbr_rates force w g))).
Proof.
  intros Hg.
  destruct (fetch_cases force w g)
    as [[t [_ ->]]|[[rates [names [date [_ [Hd ->]]]]]|[e [_ [_ ->]]]]];
    cbn [fst snd]; try exact Hg.
  unfold coherent. cbn. destruct (download_inv _ _ Hd) as [root Hr]. eauto.
Qed.

(** The handler changes the module state and the network only through its
    single unforced call of [fetch_cbr_rates], if it makes it. *)
Lemma handle_convert_effect (message_text : option str) (w : env) (g : globals) :
  (snd (fst (handle_convert message_text w g)) = g
   /\ snd (handle_convert message_text w g) = 0%nat)
  \/ (snd (fst (handle_convert message_text w g))
      = snd (fst (fetch_cbr_rates false w g))
      /\ snd (handle_convert message_text w g)
         = snd (fetch_cbr_rates false w g)).
Proof.
  unfold handle_convert.
  destruct message_text as [txt|]; [|now left].
  destruct (negb (truthy txt)); [now left|].
  destruct (parse_amount_and_currency (strip txt)) as [[amount|] [raw|]];
    try (now left).
  right.
  destruct (fetch_cbr_rates false w g) as [[[[[rates names] date]|e] g'] n];
    [|now split].
  destruct (detect_currency_code raw rates names) as [code|]; [|now split].
  destruct (dict_get rates code) as [rate|]; [|now split].
  destruct (dict_get rates (U "USD")), (dict_get rates (U "KZT")),
           (dict_get rates (U "THB")); now split.
Qed.

(** X3. In every state the module can reach from import time by calls of
    fetch_cbr_rates and handle_convert, the four cache variables are unset
    together or set together, and when set they hold tables that a run of
    the parser returned. *)
Theorem reachable_states_are_coherent :
  forall g : globals, reachable g -> coherent g.
Proof.
  intros g H. induction H as [|g force w _ IH|g txt w _ IH].
  - exact I.
  - now apply fetch_keeps_coherent.
  - destruct (handle_convert_effect txt w g) as [[-> _]|[-> _]]; [exact IH|].
    now apply fetch_keeps_coherent.
Qed.

Lemma reachable_states_are_coherent_witness :
  reachable sample_globals /\ coherent sample_globals.
Proof.
  assert (R : reachable sample_globals).
  { change sample_globals
      with (snd (fst (fetch_cbr_rates false sample_env initial_globals))).
    apply reachable_fetch, reachable_initial. }
  split; [exact R|]. exact (reachable_states_are_coherent sample_globals R).
Defined.

(** X4. A forced call issues exactly one GET whatever is cached, and what it
    returns does not depend on the state it starts from: on success two
    such calls in the same environment leave the same state, on failure
    each leaves its own state as it was. *)
Theorem forced_refresh_ignores_cache :
  forall (w : env) (g1 g2 : globals),
    snd (fetch_cbr_rates true w g1) = 1%nat
    /\ fst (fst (fetch_cbr_rates true w g1)) = fst (fst (fetch_cbr_rates true w g2))
    /\ (forall t, fst (fst (fetch_cbr_rates true w g1)) = Ok t ->
                  snd (fst (fetch_cbr_rates true w g1))
                  = snd (fst (fetch_cbr_rates true w g2)))
    /\ (forall e, fst (fst (fetch_cbr_rates true w g1)) = Raise e ->
                  snd (fst (fetch_cbr_rates true w g1)) = g1).
Proof.
  intros w g1 g2. unfold fetch_cbr_rates. cbn [cached].
  destruct (download w) as [[[rates names] date]|e]; cbn [fst snd].
  - repeat split. discriminate.
  - repeat split. discriminate.
Qed.

(* ================================================================== *)
(** * Further properties of the handler *)

(** Case analysis along the handler's branches. *)
Ltac handler_cases H :=
  unfold handle_convert in H;
  repeat match type of H with
         | context [match ?x with _ => _ end] =>
           let E := fresh "E" in destruct x eqn:E; try discriminate H
         end;
  change (U "USD") with USD in *;
  change (U "KZT") with KZT in *;
  change (U "THB") with THB in *.

(** X5. A message without text, without an amount or without a currency is
    answered from the text alone: no GET is issued, the cache is left as it
    is, and the answer is the same in every environment and state. *)
Theorem invalid_input_needs_no_rates :
  forall (message_text : option str) (w : env) (g g' : globals)
         (r : reply) (n : nat),
    handle_convert message_text w g = (Ok r, g', n) ->
    r = NoReply \/ r = MissingAmount \/ r = MissingCurrency ->
    g' = g /\ n = 0%nat
    /\ forall w2 g2, handle_convert message_text w2 g2 = (Ok r, g2, 0%nat).
Proof.
  intros txt w g g' r n H Hr.
  assert (K : forall w2 g2, handle_convert txt w2 g2 = (Ok r, g2, 0%nat)).
  { intros w2 g2. unfold handle_convert in *.
    destruct txt as [t|]; [|now injection H as <- _ _].
    destruct (negb (truthy t)); [now injection H as <- _ _|].
    destruct (parse_amount_and_currency (strip t)) as [[amount|] [raw|]];
      try (now injection H as <- _ _).
    exfalso.
    destruct (fetch_cbr_rates false w g) as [[[[[rates names] date]|e] g1] n1];
      [|injection H as <- _ _; intuition discriminate].
    destruct (detect_currency_code raw rates names) as [code|];
      [|injection H as <- _ _; intuition discriminate].
    destruct (dict_get rates code) as [rate|];
      [|injection H as <- _ _; intuition discriminate].
    destruct (dict_get rates (U "USD")), (dict_get rates (U "KZT")),
             (dict_get rates (U "THB"));
      try (injection H as <- _ _; intuition discriminate).
    injection H as H _ _. unfold truediv in H.
    repeat (destruct (is_zero _); cbn [bind] in H; [discriminate H|]).
    injection H as <-. intuition discriminate. }
  rewrite K in H. injection H as <- <-. auto.
Qed.

Lemma invalid_input_needs_no_rates_witness :
  handle_convert (Some (U "сколько стоит доллар")) sample_env initial_globals
  = (Ok MissingAmount, initial_globals, 0%nat)
  /\ handle_convert (Some (U "сколько стоит доллар"))
                    (at_time 1700000900 (Raise RequestException)) sample_globals
     = (Ok MissingAmount, sample_globals, 0%nat).
Proof.
  split; [reflexivity|].
  destruct (invalid_input_needs_no_rates (Some (U "сколько стоит доллар"))
              sample_env initial_globals initial_globals MissingAmount 0%nat
              eq_refl (or_intror (or_introl eq_refl))) as [_ [_ K]].
  apply K.
Defined.

(** An exception raised by the handler's own computation is
    [ZeroDivisionError], and then the table it fetched quotes USD, KZT and
    THB and has the rate zero for one of them. *)
Lemma handle_convert_raises (message_text : option str) (w : env)
    (g g' : globals) (e : exn) (n : nat) :
  handle_convert message_text w g = (Raise e, g', n) ->
  e = ZeroDivisionError
  /\ exists rates names date usd_rate kzt_rate thb_rate,
       fetch_cbr_rates false w g = (Ok (rates, names, date), g', n)
       /\ dict_get rates USD = Some usd_rate
       /\ dict_get rates KZT = Some kzt_rate
       /\ dict_get rates THB = Some thb_rate
       /\ is_zero usd_rate || is_zero kzt_rate || is_zero thb_rate = true.
Proof.
  intros H. handler_cases H.
  injection H as H <- <-. unfold truediv in H.
  match goal with
  | Hu : dict_get _ USD = Some ?u, Hk : dict_get _ KZT = Some ?k,
    Hb : dict_get _ THB = Some ?b |- _ =>
    assert (Z : e = ZeroDivisionError
                /\ is_zero u || is_zero k || is_zero b = true)
  end.
  { repeat (destruct (is_zero _); cbn [bind] in H;
            [injection H as <-; split; [reflexivity|];
             rewrite ?orb_true_r; reflexivity|]).
    discriminate H. }
  destruct Z as [-> Z]. split; [reflexivity|].
  do 6 eexists. repeat split; eauto.
Qed.

Lemma handle_convert_and_reply_cases {E : Type} (message_text : option str)
    (w : env) (reply_text : reply -> option E) (g g' : globals) (n : nat)
    (o : outcome E) :
  handle_convert_and_reply message_text w reply_text g = (o, g', n) ->
  match o with
  | Uncaught e => handle_convert message_text w g = (Raise e, g', n)
  | Returned r =>
    handle_convert message_text w g = (Ok r, g', n)
    /\ (r = NoReply \/ reply_text r = None)
  | SendRaised r err =>
    handle_convert message_text w g = (Ok r, g', n)
    /\ r <> NoReply /\ reply_text r = Some err
  end.
Proof.
  unfold handle_convert_and_reply.
  destruct (handle_convert message_text w g) as [[[r|e] g1] n1].
  - destruct r; try (intros [= <- <- <-]; auto);
      (destruct (reply_text _) eqn:S; intros [= <- <- <-];
       [repeat split; [discriminate|exact S] | auto]).
  - intros [= <- <- <-]. reflexivity.
Qed.

(** X6. An exception leaves the handler in two ways only.  Its own
    computation raises [ZeroDivisionError] alone, on the divisions of lines
    304-306, and then the table it fetched quotes USD, KZT and THB with the
    rate zero for one of them and nothing has been sent.  Otherwise the
    exception is the one [reply_text] raises on the single reply the handler
    sends.  Every exception of the refresh is caught; when no send fails and
    no quoted target rate is zero, the handler returns. *)
Theorem handler_exceptions :
  forall (E : Type) (message_text : option str) (w : env)
         (reply_text : reply -> option E) (g : globals),
    (forall e g' n,
        handle_convert_and_reply message_text w reply_text g = (Uncaught e, g', n) ->
        e = ZeroDivisionError
        /\ exists rates names date usd_rate kzt_rate thb_rate,
             fetch_cbr_rates false w g = (Ok (rates, names, date), g', n)
             /\ dict_get rates USD = Some usd_rate
             /\ dict_get rates KZT = Some kzt_rate
             /\ dict_get rates THB = Some thb_rate
             /\ is_zero usd_rate || is_zero kzt_rate || is_zero thb_rate = true)
    /\ (forall r err g' n,
          handle_convert_and_reply message_text w reply_text g
          = (SendRaised r err, g', n) ->
          handle_convert message_text w g = (Ok r, g', n)
          /\ r <> NoReply /\ reply_text r = Some err)
    /\ (forall e0 g1 n1,
          fetch_cbr_rates false w g = (Raise e0, g1, n1) ->
          forall e g' n,
            handle_convert_and_reply message_text w reply_text g
            <> (Uncaught e, g', n))
    /\ ((forall r, reply_text r = None) ->
        (forall rates names date g1 n1 code rate,
            fetch_cbr_rates false w g = (Ok (rates, names, date), g1, n1) ->
            In code [USD; KZT; THB] -> dict_get rates code = Some rate ->
            is_zero rate = false) ->
        exists r g' n,
          handle_convert_and_reply message_text w reply_text g
          = (Returned r, g', n)).
Proof.
  intros E txt w reply_text g. split; [|split; [|split]].
  - intros e g' n H. apply handle_convert_and_reply_cases in H.
    exact (handle_convert_raises _ _ _ _ _ _ H).
  - intros r err g' n H. apply handle_convert_and_reply_cases in H. exact H.
  - intros e0 g1 n1 F e g' n H. apply handle_convert_and_reply_cases in H.
    apply handle_convert_raises in H.
    destruct H as [_ [rates [names [date [u [k [b [F' _]]]]]]]].
    rewrite F in F'. discriminate F'.
  - intros Hs Hz.
    destruct (handle_convert_and_reply txt w reply_text g) as [[o g'] n] eqn:H.
    pose proof (handle_convert_and_reply_cases _ _ _ _ _ _ _ H) as C.
    destruct o as [r|e|r err].
    + eauto.
    + exfalso. apply handle_convert_raises in C.
      destruct C as [_ [rates [names [date [u [k [b [F [Hu [Hk [Hb Z]]]]]]]]]]].
      rewrite (Hz rates names date g' n USD u F (or_introl eq_refl) Hu) in Z.
      rewrite (Hz rates names date g' n KZT k F (or_intror (or_introl eq_refl)) Hk) in Z.
      rewrite (Hz rates names date g' n THB b F
                  (or_intror (or_intror (or_introl eq_refl))) Hb) in Z.
      discriminate Z.
    + exfalso. destruct C as [_ [_ C]]. rewrite Hs in C. discriminate C.
Qed.

Lemma handler_exceptions_witness :
  (handle_convert_and_reply (Some (U "100 rub")) zero_value_env
                            (fun _ : reply => @None unit) initial_globals
   = (Uncaught ZeroDivisionError, zero_value_globals, 1%nat)
   /\ exists rates names date usd_rate kzt_rate thb_rate,
        fetch_cbr_rates false zero_value_env initial_globals
        = (Ok (rates, names, date), zero_value_globals, 1%nat)
        /\ dict_get rates USD = Some usd_rate
        /\ dict_get rates KZT = Some kzt_rate
        /\ dict_get rates THB = Some thb_rate
        /\ is_zero usd_rate || is_zero kzt_rate || is_zero thb_rate = true)
  /\ (handle_convert_and_reply (Some (U "сколько стоит доллар")) sample_env
                               (fun _ : reply => Some tt) initial_globals
      = (SendRaised MissingAmount tt, initial_globals, 0%nat)
      /\ handle_convert (Some (U "сколько стоит доллар")) sample_env
                        initial_globals
         = (Ok MissingAmount, initial_globals, 0%nat)).
Proof.
  split.
  - assert (H : handle_convert_and_reply (Some (U "100 rub")) zero_value_env
                  (fun _ : reply => @None unit) initial_globals
                = (Uncaught ZeroDivisionError, zero_value_globals, 1%nat))
      by (vm_compute; reflexivity).
    split; [exact H|].
    destruct (handler_exceptions unit (Some (U "100 rub")) zero_value_env
                (fun _ => None) initial_globals) as [U0 _].
    exact (proj2 (U0 _ _ _ H)).
  - assert (H : handle_convert_and_reply (Some (U "сколько стоит доллар"))
                  sample_env (fun _ : reply => Some tt) initial_globals
                = (SendRaised MissingAmount tt, initial_globals, 0%nat))
      by (vm_compute; reflexivity).
    split; [exact H|].
    destruct (handler_exceptions unit (Some (U "сколько стоит доллар")) sample_env
                (fun _ => Some tt) initial_globals) as [_ [S _]].
    exact (proj1 (S _ _ _ _ H)).
Defined.

(** X7. When the amount and the currency are there and the refresh fails, the
    reply is that the rates are unavailable, also when older tables are
    still in the cache; the cache keeps them. *)
Theorem failed_refresh_replies_unavailable :
  forall (txt raw : str) (amount : float) (w : env) (g : globals) (e : exn),
    truthy txt = true ->
    parse_amount_and_currency (strip txt) = (Some amount, Some raw) ->
    cached false (time_time w) g = None ->
    refresh_failure w e ->
    handle_convert (Some txt) w g = (Ok RatesUnavailable, g, 1%nat).
Proof.
  intros txt raw amount w g e Ht Hp Hc Hf.
  apply refresh_failure_download in Hf.
  unfold handle_convert. rewrite Ht, Hp. cbn [negb].
  unfold fetch_cbr_rates. now rewrite Hc, Hf.
Qed.

Lemma failed_refresh_replies_unavailable_witness :
  cached false (time_time (at_time 1700000600 (Raise RequestException)))
         sample_globals = None
  /\ handle_convert (Some (U "100 usd"))
                    (at_time 1700000600 (Raise RequestException)) sample_globals
     = (Ok RatesUnavailable, sample_globals, 1%nat).
Proof.
  split; [reflexivity|].
  apply (failed_refresh_replies_unavailable (U "100 usd") (U "usd")
           (float_of_Z 100) (at_time 1700000600 (Raise RequestException))
           sample_globals RequestException); try reflexivity.
  now apply network_failure.
Defined.

(** X8. A conversion is computed from the very tables that are in the cache
    when the handler returns: the date is the cached date, the code is a key
    of the cached rates, the amount in roubles is amount * rate, and each
    target amount is that divided by the target's cached rate, which is not
    zero. *)
Theorem conversion_uses_cached_tables :
  forall (message_text : option str) (w : env) (g g' : globals) (n : nat)
         (date : datetime) (amount : float) (code : str)
         (in_rub in_usd in_kzt in_thb : float),
    handle_convert message_text w g
    = (Ok (Converted date amount code in_rub in_usd in_kzt in_thb), g', n) ->
    exists rates rate usd_rate kzt_rate thb_rate,
      _rates_cache g' = Some rates /\ _date_cache g' = Some date
      /\ dict_get rates code = Some rate
      /\ dict_get rates USD = Some usd_rate
      /\ dict_get rates KZT = Some kzt_rate
      /\ dict_get rates THB = Some thb_rate
      /\ is_zero usd_rate = false /\ is_zero kzt_rate = false
      /\ is_zero thb_rate = false
      /\ in_rub = fmul amount rate
      /\ in_usd = SFdiv prec emax in_rub usd_rate
      /\ in_kzt = SFdiv prec emax in_rub kzt_rate
      /\ in_thb = SFdiv prec emax in_rub thb_rate.
Proof.
  intros txt w g g' n date amount code in_rub in_usd in_kzt in_thb H.
  handler_cases H.
  injection H as H <- <-. unfold truediv in H.
  repeat match type of H with
         | context [is_zero ?x] =>
           let Z := fresh "Z" in
           destruct (is_zero x) eqn:Z; cbn [bind] in H; [discriminate H|]
         end.
  injection H as <- <- <- <- <- <- <-.
  match goal with
  | F : fetch_cbr_rates false w g = (Ok (?rates, ?names, ?d), ?g1, ?n1) |- _ =>
    assert (C : _rates_cache g1 = Some rates /\ _date_cache g1 = Some d)
  end.
  { match goal with F : fetch_cbr_rates _ _ _ = _ |- _ => rename F into F0 end.
    destruct (fetch_cases false w g)
      as [[t [Hc Hf]]|[[? [? [? [_ [_ Hf]]]]]|[? [_ [_ Hf]]]]];
      rewrite Hf in F0; [| |discriminate F0].
    - injection F0 as -> <- _.
      destruct (cached_inv _ _ _ _ Hc) as [_ [last [-> _]]]. auto.
    - injection F0 as -> -> -> <- _. auto. }
  destruct C as [C1 C2].
  do 5 eexists. repeat split; eauto.
Qed.

Lemma conversion_uses_cached_tables_witness :
  exists date in_usd in_kzt in_thb g',
    handle_convert (Some (U "100 usd")) sample_env initial_globals
    = (Ok (Converted date (float_of_Z 100) USD (float_of_Z 9500)
                     in_usd in_kzt in_thb), g', 1%nat)
    /\ _date_cache g' = Some date.
Proof.
  destruct (handle_convert (Some (U "100 usd")) sample_env initial_globals)
    as [[r g'] n] eqn:E.
  assert (E' := E). vm_compute in E'. injection E' as <- <- <-.
  destruct (conversion_uses_cached_tables _ _ _ _ _ _ _ _ _ _ _ _ E)
    as [rates [rate [u [k [b [_ [Hd _]]]]]]].
  do 5 eexists. split; [reflexivity|exact Hd].
Defined.


(** X9. While the cache is valid the handler does not touch the network:
    it issues no GET and leaves the module state as it is, whatever the
    message.  In any case it issues at most one GET. *)
Theorem handler_within_ttl_uses_no_network :
  forall (message_text : option str) (w : env) (g : globals),
    (snd (handle_convert message_text w g) <= 1)%nat
    /\ forall t, cached false (time_time w) g = Some t ->
                 snd (fst (handle_convert message_text w g)) = g
                 /\ snd (handle_convert message_text w g) = 0%nat.
Proof.
  intros txt w g.
  destruct (handle_convert_effect txt w g) as [[Hs Hn]|[Hs Hn]];
    rewrite Hs, Hn.
  - split; [lia|]. auto.
  - destruct (fetch_cases false w g)
      as [[t [Hc Hf]]|[[? [? [? [Hc [_ Hf]]]]]|[? [Hc [_ Hf]]]]];
      rewrite Hf; cbn [fst snd]; (split; [lia|]); intros t0 Ht0;
        try congruence; auto.
Qed.

Lemma handler_within_ttl_uses_no_network_witness :
  cached false (time_time (at_time 1700000599 (Raise RequestException)))
         sample_globals = Some sample_table
  /\ snd (handle_convert (Some (U "100 usd"))
            (at_time 1700000599 (Raise RequestException)) sample_globals) = 0%nat.
Proof.
  split; [reflexivity|].
  destruct (handler_within_ttl_uses_no_network (Some (U "100 usd"))
              (at_time 1700000599 (Raise RequestException)) sample_globals)
    as [_ H].
  exact (proj2 (H sample_table eq_refl)).
Defined.

(* ================================================================== *)
(** * Further facts about strings *)

Lemma isspace_spec (c : N) : isspace c = true <-> is_space c.
Proof.
  unfold isspace, is_space.
  rewrite !orb_true_iff, !andb_true_iff, !N.leb_le, !N.eqb_eq. tauto.
Qed.

Lemma isspace_false (c : N) : ~ is_space c -> isspace c = false.
Proof.
  intros H. destruct (isspace c) eqn:E; [|reflexivity].
  apply isspace_spec in E. contradiction.
Qed.

Lemma isspace_false_inv (c : N) : isspace c = false -> ~ is_space c.
Proof. intros H S. apply isspace_spec in S. congruence. Qed.

(** ** [strip] *)

Lemma lstrip_head (s : str) :
  lstrip s = [] \/ exists c r, lstrip s = c :: r /\ isspace c = false.
Proof.
  induction s as [|c s IH]; cbn [lstrip]; [now left|].
  destruct (isspace c) eqn:E; [exact IH|]. right. eauto.
Qed.

Lemma lstrip_snoc (l : str) (c : N) :
  isspace c = false -> lstrip (l ++ [c]) = lstrip l ++ [c].
Proof.
  intros Hc. induction l as [|a l IH]; cbn [lstrip app].
  - now rewrite Hc.
  - destruct (isspace a); [exact IH|reflexivity].
Qed.

Lemma rstrip_cons (c : N) (s : str) :
  isspace c = false -> rstrip (c :: s) = c :: rstrip s.
Proof.
  intros Hc. unfold rstrip. cbn [rev].
  now rewrite lstrip_snoc, rev_app_distr.
Qed.

Lemma lstrip_idempotent (s : str) : lstrip (lstrip s) = lstrip s.
Proof.
  destruct (lstrip_head s) as [->|[c [r [-> Hc]]]]; [reflexivity|].
  cbn [lstrip]. now rewrite Hc.
Qed.

Lemma rstrip_idempotent (s : str) : rstrip (rstrip s) = rstrip s.
Proof.
  unfold rstrip. now rewrite rev_involutive, lstrip_idempotent.
Qed.

Lemma strip_idempotent (s : str) : strip (strip s) = strip s.
Proof.
  unfold strip.
  destruct (lstrip_head s) as [->|[c [r [-> Hc]]]]; [reflexivity|].
  rewrite (rstrip_cons c r Hc). cbn [lstrip]. rewrite Hc.
  now rewrite (rstrip_cons c _ Hc), rstrip_idempotent.
Qed.

(** A change of code points that keeps white space white and the rest not
    commutes with [strip]. *)
Lemma lstrip_map (f : N -> N) (s : str) :
  (forall c, isspace (f c) = isspace c) ->
  lstrip (List.map f s) = List.map f (lstrip s).
Proof.
  intros Hf. induction s as [|c s IH]; cbn [lstrip List.map]; [reflexivity|].
  rewrite Hf. destruct (isspace c); [exact IH|reflexivity].
Qed.

Lemma strip_map (f : N -> N) (s : str) :
  (forall c, isspace (f c) = isspace c) ->
  strip (List.map f s) = List.map f (strip s).
Proof.
  intros Hf. unfold strip, rstrip.
  now rewrite lstrip_map, <- map_rev, lstrip_map, <- map_rev.
Qed.

Lemma strip_token (s : str) :
  Forall (fun c => isspace c = false) s -> strip s = s.
Proof.
  intros H.
  assert (L : forall u, Forall (fun c => isspace c = false) u -> lstrip u = u).
  { intros [|c u] Hu; [reflexivity|]. cbn [lstrip].
    inversion Hu as [|? ? Hc _]; subst. now rewrite Hc. }
  unfold strip, rstrip. rewrite (L s H), L, rev_involutive; [reflexivity|].
  now apply Forall_rev.
Qed.

(** ** [split] and [join] *)

Lemma split_from_word (t : str) :
  Forall (fun c => isspace c = false) t ->
  forall cur rest, split_from cur (t ++ rest) = split_from (rev t ++ cur) rest.
Proof.
  induction 1 as [|c t Hc _ IH]; intros cur rest; [reflexivity|].
  cbn [app split_from rev]. rewrite Hc, IH, <- app_assoc. reflexivity.
Qed.

Lemma split_token (t : str) : is_token t -> split t = [t].
Proof.
  intros [Hne Ht]. unfold split.
  rewrite <- (app_nil_r t) at 1. rewrite split_from_word by exact Ht.
  rewrite app_nil_r. cbn [split_from].
  destruct (rev t) eqn:E.
  - apply (f_equal (@rev N)) in E. rewrite rev_involutive in E. contradiction.
  - now rewrite <- E, rev_involutive.
Qed.

(** Splitting what [" ".join] made of tokens gives the tokens back. *)
Lemma split_join (tokens : list str) :
  Forall is_token tokens -> split (join [32] tokens) = tokens.
Proof.
  induction 1 as [|t ts Ht Hts IH]; [reflexivity|].
  destruct ts as [|t2 ts].
  - cbn [join]. now apply split_token.
  - change (join [32] (t :: t2 :: ts)) with (t ++ [32] ++ join [32] (t2 :: ts)).
    unfold split in *. destruct Ht as [Hne Ht].
    rewrite split_from_word by exact Ht. rewrite app_nil_r.
    cbn [app split_from]. change (isspace 32) with true. cbn iota.
    destruct (rev t) eqn:E.
    + apply (f_equal (@rev N)) in E. rewrite rev_involutive in E. contradiction.
    + rewrite <- E, rev_involutive. now rewrite IH.
Qed.

(** What [split] returns are tokens. *)
Lemma split_from_tokens (s : str) :
  forall cur, Forall (fun c => isspace c = false) cur ->
              Forall is_token (split_from cur s).
Proof.
  assert (T : forall cur, cur <> [] -> Forall (fun c => isspace c = false) cur ->
                          is_token (rev cur)).
  { intros cur Hne Hc. split; [|now apply Forall_rev].
    intros E. apply (f_equal (@rev N)) in E. rewrite rev_involutive in E.
    contradiction. }
  induction s as [|c s IH]; intros cur Hc; cbn [split_from].
  - destruct cur; constructor; [|constructor]. now apply T.
  - destruct (isspace c) eqn:E.
    + destruct cur as [|a cur]; [now apply IH|].
      constructor; [now apply T|]. now apply IH.
    + apply IH. now constructor.
Qed.

Lemma split_tokens (s : str) : Forall is_token (split s).
Proof. apply split_from_tokens. constructor. Qed.

Lemma join_last (tokens : list str) :
  tokens <> [] -> Forall is_token tokens ->
  exists x c, join [32] tokens = x ++ [c] /\ isspace c = false.
Proof.
  intros Hne H. induction H as [|t ts [Tne Ht] Hts IH]; [contradiction|].
  destruct ts as [|t2 ts].
  - cbn [join]. destruct (exists_last Tne) as [x [c ->]].
    exists x, c. split; [reflexivity|].
    apply Forall_app in Ht. destruct Ht as [_ Hc]. now inversion Hc.
  - destruct IH as [x [c [E Hc]]]; [discriminate|].
    exists (t ++ [32] ++ x), c.
    change (join [32] (t :: t2 :: ts)) with (t ++ [32] ++ join [32] (t2 :: ts)).
    rewrite E, <- !app_assoc. auto.
Qed.

(** Joined tokens have no white space at either end. *)
Lemma join_tokens (t : str) (ts : list str) :
  Forall is_token (t :: ts) ->
  strip (join [32] (t :: ts)) = join [32] (t :: ts) /\ join [32] (t :: ts) <> [].
Proof.
  intros H.
  destruct (join_last (t :: ts) ltac:(discriminate) H) as [x [c [E Hc]]].
  assert (Hh : exists c0 r0, join [32] (t :: ts) = c0 :: r0 /\ isspace c0 = false).
  { inversion H as [|? ? [Hne Ht] _]; subst.
    destruct t as [|c0 t0]; [contradiction|]. inversion Ht; subst.
    destruct ts; cbn [join app]; eauto. }
  destruct Hh as [c0 [r0 [Ej Hc0]]].
  split; [|rewrite Ej; discriminate].
  unfold strip. rewrite Ej at 1. cbn [lstrip]. rewrite Hc0, <- Ej, E.
  unfold rstrip. rewrite rev_app_distr. cbn [rev app lstrip]. rewrite Hc.
  change (c :: rev x) with ([c] ++ rev x).
  now rewrite rev_app_distr, rev_involutive.
Qed.

(* ================================================================== *)
(** * Further properties of the extraction *)

Lemma replace_keeps_space (old new : N) (c : N) :
  isspace old = false -> isspace new = false ->
  isspace (if c =? old then new else c) = isspace c.
Proof.
  intros Ho Hn. destruct (N.eqb_spec c old) as [->|_]; [|reflexivity].
  now rewrite Ho, Hn.
Qed.

Lemma strip_replace_comma (s : str) :
  strip (replace 44 46 s) = replace 44 46 (strip s).
Proof.
  unfold replace. apply strip_map. intros c.
  now apply replace_keeps_space.
Qed.

Lemma replace_idempotent (old new : N) (s : str) :
  old <> new -> replace old new (replace old new s) = replace old new s.
Proof.
  intros Hne. unfold replace. rewrite map_map. apply map_ext. intros c.
  destruct (N.eqb_spec c old) as [->|Hc].
  - destruct (N.eqb_spec new old); congruence.
  - destruct (N.eqb_spec c old); congruence.
Qed.

(** X10. White space around the text and the choice between comma and point
    do not matter to the extraction: stripping the text first (as the
    handler does on line 248) or writing points for the commas gives the
    same amount and the same phrase. *)
Theorem extraction_ignores_margins_and_commas :
  forall text : str,
    parse_amount_and_currency (strip text) = parse_amount_and_currency text
    /\ parse_amount_and_currency (replace 44 46 text)
       = parse_amount_and_currency text.
Proof.
  intros text. unfold parse_amount_and_currency. split.
  - now rewrite <- strip_replace_comma, strip_idempotent.
  - now rewrite replace_idempotent by discriminate.
Qed.

(** X11. The currency phrase the extraction returns is never blank: it has
    no white space at either end, contains no comma, and splitting it on
    white space gives back exactly the tokens after the amount. *)
Theorem extracted_phrase_is_clean :
  forall (text phrase : str) (amount : float),
    parse_amount_and_currency text = (Some amount, Some phrase) ->
    phrase <> []
    /\ strip phrase = phrase
    /\ split phrase = tl (split (replace 44 46 text))
    /\ ~ In 44 phrase.
Proof.
  intros text phrase amount. unfold parse_amount_and_currency.
  rewrite split_strip.
  pose proof (split_tokens (replace 44 46 text)) as T.
  assert (C : forall t, In t (split (replace 44 46 text)) -> ~ In 44 t).
  { intros t Ht H44. unfold split in Ht.
    assert (G : forall s cur t0, In t0 (split_from cur s) ->
                                 In 44 t0 -> In 44 cur \/ In 44 s).
    { induction s as [|c s IH]; intros cur t0; cbn [split_from].
      - destruct cur; [intros []|]. intros [<-|[]] K.
        left. now apply in_rev.
      - destruct (isspace c).
        + destruct cur as [|a cur].
          * intros K1 K2. destruct (IH _ _ K1 K2) as [[]|K]. right. now right.
          * intros [<-|K1] K2; [left; now apply in_rev|].
            destruct (IH _ _ K1 K2) as [[]|K]. right. now right.
        + intros K1 K2. destruct (IH _ _ K1 K2) as [[<-|K]|K];
            [right; now left|now left|right; now right]. }
    destruct (G _ _ _ Ht H44) as [[]|K].
    unfold replace in K. apply in_map_iff in K. destruct K as [c [K _]].
    destruct (N.eqb_spec c 44); [discriminate K|congruence]. }
  destruct (split (replace 44 46 text)) as [|first rest]; [discriminate|].
  destruct (float_of_str first); [|discriminate].
  destruct rest as [|second rest]; [discriminate|].
  intros [= _ <-]. cbn [tl].
  inversion T as [|? ? _ Trest]; subst.
  destruct (join_tokens second rest Trest) as [Hs Hne].
  split; [exact Hne|]. split; [exact Hs|].
  split; [exact (split_join (second :: rest) Trest)|].
  intros H44.
  assert (J : forall ts, (forall t, In t ts -> ~ In 44 t) -> ~ In 44 (join [32] ts)).
  { induction ts as [|t [|t2 ts] IH]; intros Hts; cbn [join].
    - intros [].
    - apply Hts. now left.
    - rewrite !in_app_iff. intros [K|[[K|[]]|K]].
      + apply (Hts t); [now left|exact K].
      + discriminate K.
      + apply IH; [|exact K]. intros u Hu. apply Hts. now right. }
  apply (J (second :: rest)); [|exact H44].
  intros t Ht. apply C. now right.
Qed.

Lemma extracted_phrase_is_clean_witness :
  parse_amount_and_currency (U " 2500,50  Доллар   США ")
  = (Some (float_of_ratio false 5001 2), Some (U "Доллар США"))
  /\ split (U "Доллар США") = tl (split (replace 44 46 (U " 2500,50  Доллар   США "))).
Proof.
  split; [reflexivity|].
  destruct (extracted_phrase_is_clean (U " 2500,50  Доллар   США ")
              (U "Доллар США") (float_of_ratio false 5001 2) eq_refl)
    as [_ [_ [H _]]].
  exact H.
Defined.

(* ================================================================== *)
(** * Further properties of the resolution *)

(** Case analysis on the comparisons of a code point, innermost first. *)
Ltac no_branch t :=
  lazymatch t with
  | context [if _ then _ else _] => fail
  | _ => idtac
  end.

Ltac char_cases :=
  cbv zeta;
  repeat first
    [ progress cbn [andb orb]
    | match goal with
      | |- context [N.leb ?a ?b] =>
        no_branch a; no_branch b; destruct (N.leb_spec a b)
      | |- context [N.eqb ?a ?b] =>
        no_branch a; no_branch b; destruct (N.eqb_spec a b)
      end ];
  try reflexivity; try lia.

Lemma normalize_text_map (text : str) :
  normalize_text text = List.map normalize_char (strip text).
Proof.
  unfold normalize_text, replace, lower. rewrite map_map. reflexivity.
Qed.

Lemma normalize_char_idempotent (c : N) :
  normalize_char (normalize_char c) = normalize_char c.
Proof. unfold normalize_char, lower_char. char_cases. Qed.

Lemma normalize_char_space (c : N) :
  isspace (normalize_char c) = isspace c.
Proof.
  unfold normalize_char, lower_char. char_cases;
    rewrite !isspace_false; try reflexivity; unfold is_space; lia.
Qed.

(** X12. normalize_text is idempotent, so the resolver gives the same
    answer on a phrase and on its normalized form. *)
Theorem normalization_is_idempotent :
  forall text : str,
    normalize_text (normalize_text text) = normalize_text text
    /\ forall rates names,
         detect_currency_code (normalize_text text) rates names
         = detect_currency_code text rates names.
Proof.
  intros text.
  assert (E : normalize_text (normalize_text text) = normalize_text text).
  { rewrite !normalize_text_map.
    rewrite strip_map by exact normalize_char_space.
    rewrite strip_idempotent, map_map.
    apply map_ext. exact normalize_char_idempotent. }
  split; [exact E|]. intros rates names.
  unfold detect_currency_code. now rewrite E.
Qed.

Lemma lstrip_blank (s : str) : forallb isspace s = true -> lstrip s = [].
Proof.
  induction s as [|c s IH]; cbn [forallb lstrip]; [reflexivity|].
  intros H. apply andb_true_iff in H. destruct H as [-> H]. now apply IH.
Qed.

(** X13. On a blank phrase (empty or white space only) the name search
    matches every name, so the resolver answers with the first key of the
    names: [RUB] on the tables the parser builds, nothing on empty names. *)
Theorem blank_phrase_resolves_to_first_name :
  forall (raw : str) (rates : dict float) (names : dict str),
    forallb isspace raw = true ->
    detect_currency_code raw rates names = hd_error (keys names)
    /\ forall now root date,
         build_tables now root = Ok (rates, names, date) ->
         detect_currency_code raw rates names = Some RUB.
Proof.
  intros raw rates names Hb.
  assert (E : detect_currency_code raw rates names = hd_error (keys names)).
  { unfold detect_currency_code, normalize_text, strip.
    rewrite (lstrip_blank raw Hb). cbn.
    destruct names as [|[c n] rest]; cbn; [reflexivity|].
    now destruct (normalize_text n). }
  split; [exact E|]. intros now root date H.
  apply build_tables_inv in H. destruct H as [_ H].
  destruct (valute_loop_keys _ _ H) as [_ [others Ho]]. cbn [snd] in Ho.
  now rewrite E, Ho.
Qed.

Lemma blank_phrase_resolves_to_first_name_witness :
  forallb isspace (U "   ") = true
  /\ detect_currency_code (U "   ") (fst (fst sample_table))
                          (snd (fst sample_table)) = Some RUB.
Proof.
  split; [reflexivity|].
  destruct (blank_phrase_resolves_to_first_name (U "   ") (fst (fst sample_table))
              (snd (fst sample_table)) eq_refl) as [_ H].
  apply (H (datetime_now sample_env) sample_feed (snd sample_table)).
  reflexivity.
Defined.

(** ** Codes typed in Latin letters *)

Lemma letters_lower (raw : str) :
  ascii_letters raw = true ->
  Forall (fun c => 97 <= c <= 122) (lower raw)
  /\ upper (lower raw) = upper raw.
Proof.
  unfold ascii_letters, lower, upper.
  induction raw as [|c raw IH]; cbn [forallb List.map]; [split; constructor|].
  intros H. apply andb_true_iff in H. destruct H as [Hc H].
  destruct (IH H) as [IH1 IH2]. split.
  - constructor; [|exact IH1].
    unfold between in Hc. apply orb_true_iff in Hc.
    rewrite !andb_true_iff, !N.leb_le in Hc.
    unfold lower_char. char_cases.
  - rewrite IH2. f_equal.
    unfold between in Hc. apply orb_true_iff in Hc.
    rewrite !andb_true_iff, !N.leb_le in Hc.
    unfold upper_char, lower_char. char_cases.
Qed.

Lemma map_fixed (f : N -> N) (P : N -> Prop) (s : str) :
  (forall c, P c -> f c = c) -> Forall P s -> List.map f s = s.
Proof.
  intros Hf. induction 1 as [|c s Hc _ IH]; cbn [List.map]; [reflexivity|].
  now rewrite Hf, IH.
Qed.

(** X14. A code quoted in the table and typed in Latin letters, in any
    letter case and alone, is found: the resolver returns it upper-cased,
    unless the word is one of the aliases, whose code it returns then. *)
Theorem typed_code_is_found :
  forall (raw : str) (rates : dict float) (names : dict str),
    raw <> [] -> ascii_letters raw = true ->
    dict_in (upper raw) rates = true ->
    detect_currency_code raw rates names
    = match dict_get aliases (lower raw) with
      | Some code => Some code
      | None => Some (upper raw)
      end.
Proof.
  intros raw rates names Hne Hl Hin.
  destruct (letters_lower raw Hl) as [Hw Hu].
  assert (Hraw : Forall (fun c => isspace c = false) raw).
  { unfold ascii_letters in Hl. rewrite forallb_forall in Hl.
    apply Forall_forall. intros c Hc. specialize (Hl c Hc).
    unfold between in Hl. apply orb_true_iff in Hl.
    rewrite !andb_true_iff, !N.leb_le in Hl.
    apply isspace_false. unfold is_space. lia. }
  assert (Hs : Forall (fun c => isspace c = false) (lower raw)).
  { eapply Forall_impl; [|exact Hw]. intros c Hc. cbn beta in Hc.
    apply isspace_false. unfold is_space. lia. }
  assert (N1 : normalize_text raw = lower raw).
  { unfold normalize_text. rewrite (strip_token raw Hraw).
    unfold replace. apply (map_fixed _ (fun c => 97 <= c <= 122)); [|exact Hw].
    intros c Hc. destruct (N.eqb_spec c 1105); [lia|reflexivity]. }
  assert (N2 : tokenize (lower raw) = [lower raw]).
  { unfold tokenize, replace.
    rewrite (map_fixed _ (fun c => 97 <= c <= 122) (lower raw));
      [|intros c Hc; destruct (N.eqb_spec c 44); [lia|reflexivity]|exact Hw].
    rewrite (map_fixed _ (fun c => 97 <= c <= 122) (lower raw));
      [|intros c Hc; destruct (N.eqb_spec c 46); [lia|reflexivity]|exact Hw].
    apply split_token. split; [|exact Hs].
    unfold lower. destruct raw; [contradiction|discriminate]. }
  unfold detect_currency_code. rewrite N1, N2. cbn [by_alias by_code].
  destruct (dict_get aliases (lower raw)); [reflexivity|].
  now rewrite Hu, Hin.
Qed.

Lemma typed_code_is_found_witness :
  dict_in (upper (U "Aud")) (fst (fst sample_table)) = true
  /\ detect_currency_code (U "Aud") (fst (fst sample_table))
                          (snd (fst sample_table)) = Some (U "AUD").
Proof.
  split; [reflexivity|].
  apply (typed_code_is_found (U "Aud") (fst (fst sample_table))
           (snd (fst sample_table))); [discriminate|reflexivity|reflexivity].
Defined.

(** ** The reply for a code that is not quoted *)

Lemma detect_on_parsed_table (now : datetime) (root : Element)
      (rates : dict float) (names : dict str) (date : datetime) (raw code : str) :
  build_tables now root = Ok (rates, names, date) ->
  detect_currency_code raw rates names = Some code ->
  dict_get rates code = None ->
  In code [USD; KZT; THB].
Proof.
  intros Hb Hd Hn.
  destruct (build_tables_inv _ _ _ _ _ Hb) as [_ Hl].
  destruct (valute_loop_keys _ _ Hl) as [Hk [others Ho]]. cbn [fst snd] in *.
  assert (Hnot : dict_in code rates = false) by (unfold dict_in; now rewrite Hn).
  unfold detect_currency_code in Hd.
  destruct (by_alias (tokenize (normalize_text raw))) as [c|] eqn:A.
  - injection Hd as ->. destruct (by_alias_codes _ _ A) as [<-|Hc]; [|exact Hc].
    assert (K : dict_in RUB rates = true)
      by (apply dict_in_keys; rewrite Hk, Ho; now left).
    congruence.
  - destruct (by_code rates (tokenize (normalize_text raw))) as [c|] eqn:B.
    + injection Hd as ->. apply by_code_in in B. congruence.
    + apply by_name_in in Hd.
      assert (K : dict_in code rates = true)
        by (apply dict_in_keys; now rewrite Hk).
      congruence.
Qed.

(** X15. In a reachable state, the reply that a currency is not in the list
    of rates can only name USD, KZT or THB: the code came from an alias and
    the feed did not quote it. *)
Theorem unquoted_reply_names_a_target :
  forall (message_text : option str) (w : env) (g g' : globals)
         (n : nat) (code : str),
    reachable g ->
    handle_convert message_text w g = (Ok (CurrencyNotQuoted code), g', n) ->
    In code [USD; KZT; THB].
Proof.
  intros txt w g g' n code Hr H.
  assert (Hg : coherent g).
  { clear H. induction Hr as [|g0 force w0 _ IH|g0 t0 w0 _ IH].
    - exact I.
    - now apply fetch_keeps_coherent.
    - destruct (handle_convert_effect t0 w0 g0) as [[-> _]|[-> _]]; [exact IH|].
      now apply fetch_keeps_coherent. }
  handler_cases H;
    try (injection H as H _ _; unfold truediv in H;
         repeat (destruct (is_zero _); cbn [bind] in H; [discriminate H|]);
         discriminate H).
  injection H as <- <- <-.
  match goal with
  | F : fetch_cbr_rates false w g = (Ok (?r, ?nm, ?d), _, _),
    D : detect_currency_code _ ?r ?nm = Some _,
    G : dict_get ?r _ = None |- _ =>
    assert (B : exists now root, build_tables now root = Ok (r, nm, d));
      [|destruct B as [now [root B]];
        exact (detect_on_parsed_table _ _ _ _ _ _ _ B D G)];
    rename F into F0
  end.
  destruct (fetch_cases false w g)
    as [[t [Hc Hf]]|[[? [? [? [_ [Hd Hf]]]]]|[? [_ [_ Hf]]]]];
    rewrite Hf in F0; [| |discriminate F0].
  - injection F0 as -> _ _.
    destruct (cached_inv _ _ _ _ Hc) as [_ [last [-> _]]].
    exact Hg.
  - injection F0 as -> -> -> _ _.
    destruct (download_inv _ _ Hd) as [root Hb]. eauto.
Qed.

Lemma unquoted_reply_names_a_target_witness :
  reachable initial_globals
  /\ handle_convert (Some (U "5 бат")) (at_time 1700000000 (serving feed_no_date))
                    initial_globals
     = (Ok (CurrencyNotQuoted THB),
        snd (fst (fetch_cbr_rates false (at_time 1700000000 (serving feed_no_date))
                                  initial_globals)),
        1%nat)
  /\ In THB [USD; KZT; THB].
Proof.
  split; [exact reachable_initial|].
  assert (H : handle_convert (Some (U "5 бат"))
                (at_time 1700000000 (serving feed_no_date)) initial_globals
              = (Ok (CurrencyNotQuoted THB),
                 snd (fst (fetch_cbr_rates false
                             (at_time 1700000000 (serving feed_no_date))
                             initial_globals)),
                 1%nat)) by (vm_compute; reflexivity).
  split; [exact H|].
  exact (unquoted_reply_names_a_target _ _ _ _ _ _ reachable_initial H).
Defined.

(* ================================================================== *)
(** * Formatting *)

Section Digits.
Local Open Scope Z_scope.

Lemma digit_char (q : Z) :
  0 <= q <= 9 ->
  is_digit (Z.to_N (48 + q)) = true /\ digit_val (Z.to_N (48 + q)) = q.
Proof.
  intros H. unfold is_digit, digit_val. split.
  - apply andb_true_iff. split; apply N.leb_le; lia.
  - lia.
Qed.

Lemma frac_digits_shape (d : nat) (n : Z) :
  List.length (frac_digits d n) = d
  /\ Forall (fun c => is_digit c = true) (frac_digits d n).
Proof.
  revert n. induction d as [|d IH]; intros n; cbn [frac_digits].
  - split; [reflexivity|constructor].
  - destruct (IH (n / 10)) as [L F]. split.
    + rewrite length_app, L. cbn. lia.
    + apply Forall_app. split; [exact F|]. constructor; [|constructor].
      apply digit_char. pose proof (Z.mod_pos_bound n 10). lia.
Qed.

Lemma decimal_shape (fuel : nat) (n : Z) :
  0 <= n ->
  Forall (fun c => is_digit c = true) (decimal fuel n)
  /\ (fuel <> O -> decimal fuel n <> []).
Proof.
  revert n. induction fuel as [|fuel IH]; intros n Hn; cbn [decimal].
  - split; [constructor|congruence].
  - destruct (Z.ltb_spec n 10).
    + split; [|discriminate]. constructor; [|constructor].
      apply digit_char. lia.
    + destruct (IH (n / 10)) as [F _]; [apply Z.div_pos; lia|].
      split.
      * apply Forall_app. split; [exact F|]. constructor; [|constructor].
        apply digit_char. pose proof (Z.mod_pos_bound n 10). lia.
      * intros _ E. apply app_eq_nil in E. destruct E as [_ E]. discriminate E.
Qed.

Lemma Z_of_digits_snoc (l : list Z) (d : Z) :
  Z_of_digits (l ++ [d]) = Z_of_digits l * 10 + d.
Proof. unfold Z_of_digits. now rewrite fold_left_app. Qed.

Lemma decimal_value (fuel : nat) (n : Z) :
  0 <= n < 10 ^ Z.of_nat fuel ->
  Z_of_digits (List.map digit_val (decimal fuel n)) = n.
Proof.
  revert n. induction fuel as [|fuel IH]; intros n Hn; cbn [decimal].
  - cbn in Hn. assert (n = 0) by lia. now subst.
  - destruct (Z.ltb_spec n 10).
    + cbn [List.map]. destruct (digit_char n) as [_ ->]; [lia|].
      unfold Z_of_digits. cbn. lia.
    + rewrite map_app. cbn [List.map]. rewrite Z_of_digits_snoc.
      destruct (digit_char (n mod 10)) as [_ ->];
        [pose proof (Z.mod_pos_bound n 10); lia|].
      rewrite IH; [Z.div_mod_to_equations; lia|].
      rewrite Nat2Z.inj_succ, Z.pow_succ_r in Hn by lia.
      split; [apply Z.div_pos; lia|].
      apply Z.div_lt_upper_bound; lia.
Qed.

(** The digits of the integer part spell it: the fuel is enough. *)
Lemma int_digits_value (n : Z) :
  0 <= n -> Z_of_digits (List.map digit_val (int_digits n)) = n.
Proof.
  intros Hn. unfold int_digits. apply decimal_value. split; [exact Hn|].
  rewrite Nat2Z.inj_succ, Z2Nat.id by apply Z.log2_nonneg.
  destruct (Z.eq_dec n 0) as [->|Hz]; [cbn; lia|].
  destruct (Z.log2_spec n ltac:(lia)) as [_ Hu].
  eapply Z.lt_le_trans; [exact Hu|].
  apply Z.pow_le_mono_l. pose proof (Z.log2_nonneg n). lia.
Qed.

Lemma group3_shape (l : str) :
  Forall (fun c => is_digit c = true) l ->
  Forall (fun c => is_digit c = true \/ c = 44%N) (group3 l)
  /\ (l <> [] -> group3 l <> []).
Proof.
  assert (G : forall (k : nat) (u : str),
             (List.length u <= k)%nat ->
             Forall (fun c => is_digit c = true) u ->
             Forall (fun c => is_digit c = true \/ c = 44%N) (group3 u)).
  { induction k as [|k IH]; intros u Hk Hu.
    - destruct u; [constructor|cbn in Hk; lia].
    - destruct u as [|a [|b [|c [|d r]]]];
        try (cbn [group3]; eapply Forall_impl; [|exact Hu]; cbn beta; tauto).
      change (group3 (a :: b :: c :: d :: r))
        with (a :: b :: c :: 44%N :: group3 (d :: r)).
      inversion Hu as [|? ? Ha Hu1]; subst.
      inversion Hu1 as [|? ? Hb Hu2]; subst.
      inversion Hu2 as [|? ? Hc Hu3]; subst.
      repeat (constructor; [tauto|]).
      apply IH; [cbn [List.length] in *; lia|exact Hu3]. }
  intros Hl. split; [now apply (G (List.length l))|].
  destruct l as [|a [|b [|c [|d r]]]]; cbn [group3]; congruence.
Qed.

Lemma round_half_even_nonneg (num den : Z) :
  0 <= num -> 0 < den -> 0 <= round_half_even num den.
Proof.
  intros Hn Hd. unfold round_half_even.
  pose proof (Z.div_pos num den Hn Hd).
  destruct (2 * (num mod den) ?= den); [destruct (Z.even _)| |]; lia.
Qed.

Lemma scaled_nonneg (m : positive) (e d : Z) : 0 <= d -> 0 <= scaled m e d.
Proof.
  intros Hd. unfold scaled.
  assert (0 < 10 ^ d) by (apply Z.pow_pos_nonneg; lia).
  destruct e as [|k|k].
  - rewrite Z.pow_0_r. lia.
  - assert (0 < 2 ^ Z.pos k) by (apply Z.pow_pos_nonneg; lia). nia.
  - apply round_half_even_nonneg; [nia|]. apply Z.pow_pos_nonneg; lia.
Qed.

Lemma replace_comma_app (a b : str) :
  replace 44 32 (a ++ b) = replace 44 32 a ++ replace 44 32 b.
Proof. unfold replace. apply map_app. Qed.

Lemma replace_comma_digits (l : str) :
  Forall (fun c => is_digit c = true) l -> replace 44 32 l = l.
Proof.
  intros H. unfold replace.
  apply (map_fixed _ (fun c => is_digit c = true)); [|exact H].
  intros c Hc. destruct (N.eqb_spec c 44) as [->|]; [discriminate Hc|reflexivity].
Qed.

(** X16. format_amount raises [ValueError] for a negative precision (and
    one beyond INT_MAX); otherwise it returns a text without any comma.
    For a finite value and at least one decimal the text is an optional
    minus sign, a non-empty run of digits and spaces, a point, and exactly
    [digits] digits. *)
Theorem format_amount_shape :
  forall (value : float) (digits : Z),
    (digits < 0 \/ INT_MAX < digits -> format_amount value digits = Raise ValueError)
    /\ (0 <= digits <= INT_MAX ->
        exists text, format_amount value digits = Ok text /\ ~ In 44%N text)
    /\ (is_real value = true -> 1 <= digits <= INT_MAX ->
        exists sign int_part frac,
          format_amount value digits = Ok (sign ++ int_part ++ 46%N :: frac)
          /\ (sign = [] \/ sign = [45%N])
          /\ int_part <> []
          /\ Forall (fun c => is_digit c = true \/ c = 32%N) int_part
          /\ List.length frac = Z.to_nat digits
          /\ Forall (fun c => is_digit c = true) frac).
Proof.
  intros value digits. unfold format_amount. split; [|split].
  - intros H.
    destruct (Z.ltb_spec digits 0), (Z.ltb_spec INT_MAX digits);
      cbn [orb]; try reflexivity; lia.
  - intros H.
    destruct (Z.ltb_spec digits 0), (Z.ltb_spec INT_MAX digits); try lia.
    cbn [orb]. eexists. split; [reflexivity|].
    unfold replace. intros K. apply in_map_iff in K. destruct K as [c [K _]].
    destruct (N.eqb_spec c 44); [discriminate K|congruence].
  - intros Hreal H.
    destruct (Z.ltb_spec digits 0), (Z.ltb_spec INT_MAX digits); try lia.
    cbn [orb].
    assert (B : forall s n, 0 <= n ->
              exists sign int_part frac,
                replace 44 32
                  (minus s
                   ++ rev (group3 (rev (int_digits (n / 10 ^ digits))))
                   ++ (if digits =? 0 then []
                       else 46%N :: frac_digits (Z.to_nat digits) (n mod 10 ^ digits)))
                = sign ++ int_part ++ 46%N :: frac
                /\ (sign = [] \/ sign = [45%N])
                /\ int_part <> []
                /\ Forall (fun c => is_digit c = true \/ c = 32%N) int_part
                /\ List.length frac = Z.to_nat digits
                /\ Forall (fun c => is_digit c = true) frac).
    { intros s n Hn.
      destruct (Z.eqb_spec digits 0); [lia|].
      assert (Hq : 0 <= n / 10 ^ digits)
        by (apply Z.div_pos; [lia|apply Z.pow_pos_nonneg; lia]).
      destruct (decimal_shape (S (Z.to_nat (Z.log2 (n / 10 ^ digits)))) _ Hq)
        as [Fd Nd]. fold (int_digits (n / 10 ^ digits)) in Fd, Nd.
      destruct (group3_shape (rev (int_digits (n / 10 ^ digits))))
        as [Fg Ng]; [now apply Forall_rev|].
      destruct (frac_digits_shape (Z.to_nat digits) (n mod 10 ^ digits)) as [Lf Ff].
      exists (minus s),
             (replace 44 32 (rev (group3 (rev (int_digits (n / 10 ^ digits)))))),
             (frac_digits (Z.to_nat digits) (n mod 10 ^ digits)).
      split; [|split; [|split; [|split; [|split]]]].
      - rewrite !replace_comma_app. f_equal; [now destruct s|]. f_equal.
        change (replace 44 32 (46%N :: ?x)) with (46%N :: replace 44 32 x).
        now rewrite replace_comma_digits.
      - destruct s; cbn; tauto.
      - unfold replace. intros E. apply map_eq_nil in E.
        apply (f_equal (@rev N)) in E. rewrite rev_involutive in E. cbn in E.
        apply Ng in E; [exact E|]. intros E2.
        apply (f_equal (@rev N)) in E2. rewrite rev_involutive in E2.
        apply Nd; [discriminate|exact E2].
      - unfold replace. apply Forall_map. apply Forall_rev.
        eapply Forall_impl; [|exact Fg]. intros c [Hc| ->].
        + destruct (N.eqb_spec c 44) as [->|]; [discriminate Hc|now left].
        + now right.
      - exact Lf.
      - exact Ff. }
    destruct value as [s|s| |s m e]; try discriminate Hreal; cbn [format_fixed].
    + destruct (B s 0 ltac:(lia)) as [sg [ip [fr [E R]]]].
      exists sg, ip, fr. split; [now rewrite <- E|exact R].
    + destruct (B s (scaled m e digits) (scaled_nonneg m e digits ltac:(lia)))
        as [sg [ip [fr [E R]]]].
      exists sg, ip, fr. split; [now rewrite <- E|exact R].
Qed.

Lemma format_amount_shape_witness :
  is_real (float_of_ratio false 12345678 1000) = true
  /\ 1 <= 2 <= INT_MAX
  /\ format_amount (float_of_ratio false 12345678 1000) 2 = Ok (U "12 345.68")
  /\ exists text, format_amount (float_of_ratio false 12345678 1000) 2 = Ok text
                  /\ ~ In 44%N text.
Proof.
  split; [reflexivity|]. split; [unfold INT_MAX; lia|]. split; [reflexivity|].
  destruct (format_amount_shape (float_of_ratio false 12345678 1000) 2)
    as [_ [H _]].
  apply H. unfold INT_MAX. lia.
Defined.

End Digits.

(** ** The date of the reply *)

Section Dates.
Local Open Scope Z_scope.

Ltac bool_hyps :=
  repeat match goal with
         | H : (_ && _)%bool = true |- _ => apply andb_true_iff in H; destruct H
         | H : between _ _ _ = true |- _ => unfold between in H
         | H : is_digit _ = true |- _ => unfold is_digit in H
         | H : N.leb _ _ = true |- _ => apply N.leb_le in H
         | H : N.eqb _ _ = true |- _ => apply N.eqb_eq in H
         end.

Lemma some_pair_fst {A B : Type} (a c : A) (b d : B) :
  Some (a, b) = Some (c, d) -> a = c.
Proof. congruence. Qed.

Ltac range_cases :=
  repeat match goal with
         | |- context [if ?c then _ else _] => destruct c eqn:?
         end; try discriminate;
  let E := fresh "E" in
  intros E; apply some_pair_fst in E; subst;
  bool_hyps; unfold digit_val; lia.

Lemma directive_d_range (s r : str) (v : Z) :
  directive_d s = Some (v, r) -> 1 <= v <= 31.
Proof.
  unfold directive_d. destruct s as [|a [|b s]]; [discriminate| |]; range_cases.
Qed.

Lemma directive_m_range (s r : str) (v : Z) :
  directive_m s = Some (v, r) -> 1 <= v <= 12.
Proof.
  unfold directive_m. destruct s as [|a [|b s]]; [discriminate| |]; range_cases.
Qed.

Lemma directive_Y_range (s r : str) (v : Z) :
  directive_Y s = Some (v, r) -> 0 <= v <= 9999.
Proof.
  unfold directive_Y. destruct s as [|a [|b [|c [|d s]]]]; try discriminate.
  destruct (is_digit a && is_digit b && is_digit c && is_digit d)%bool eqn:E;
    [|discriminate].
  intros E1. apply some_pair_fst in E1. subst v.
  bool_hyps. unfold Z_of_digits, digit_val. cbn [fold_left]. lia.
Qed.

(** What a parsed date looks like. *)
Lemma strptime_inv (s : str) (d : datetime) :
  strptime_dmY s = Ok d ->
  d = mkdatetime (year d) (month d) (day d) 0 0 0 0
  /\ 1 <= day d <= 31 /\ 1 <= month d <= 12 /\ 1 <= year d <= 9999
  /\ day d <= days_in_month (year d) (month d).
Proof.
  unfold strptime_dmY.
  destruct (directive_d s) as [[dd r1]|] eqn:D; [|discriminate].
  destruct (dot r1) as [r2|]; [|discriminate].
  destruct (directive_m r2) as [[mm r3]|] eqn:M; [|discriminate].
  destruct (dot r3) as [r4|]; [|discriminate].
  destruct (directive_Y r4) as [[yy [|? ?]]|] eqn:Y; try discriminate.
  destruct ((1 <=? yy) && (dd <=? days_in_month yy mm))%bool eqn:V; [|discriminate].
  intros [= <-]. cbn [year month day].
  apply andb_true_iff in V. destruct V as [V1 V2].
  apply Z.leb_le in V1, V2.
  pose proof (directive_d_range _ _ _ D).
  pose proof (directive_m_range _ _ _ M).
  pose proof (directive_Y_range _ _ _ Y).
  repeat split; lia.
Qed.

Lemma small_cases (v lo : Z) (n : nat) :
  lo <= v < lo + Z.of_nat n -> In v (List.map (fun k => lo + Z.of_nat k) (seq 0 n)).
Proof.
  intros H. apply in_map_iff. exists (Z.to_nat (v - lo)). split; [lia|].
  apply in_seq. lia.
Qed.

Lemma directive_d_pad2 (v : Z) (r : str) :
  1 <= v <= 31 -> directive_d (pad2 v ++ r) = Some (v, r).
Proof.
  intros H. pose proof (small_cases v 1 31 ltac:(lia)) as C.
  cbn in C.
  repeat (destruct C as [<-|C]; [reflexivity|]). contradiction.
Qed.

Lemma directive_m_pad2 (v : Z) (r : str) :
  1 <= v <= 12 -> directive_m (pad2 v ++ r) = Some (v, r).
Proof.
  intros H. pose proof (small_cases v 1 12 ltac:(lia)) as C.
  cbn in C.
  repeat (destruct C as [<-|C]; [reflexivity|]). contradiction.
Qed.

Lemma directive_Y_pad (y : Z) :
  0 <= y <= 9999 ->
  directive_Y (pad2 (y / 100) ++ pad2 (y mod 100)) = Some (y, []).
Proof.
  intros H. unfold directive_Y, pad2. cbn [app].
  destruct (digit_char (y / 100 / 10)) as [A1 A2];
    [Z.div_mod_to_equations; lia|].
  destruct (digit_char ((y / 100) mod 10)) as [B1 B2];
    [Z.div_mod_to_equations; lia|].
  destruct (digit_char (y mod 100 / 10)) as [C1 C2];
    [Z.div_mod_to_equations; lia|].
  destruct (digit_char ((y mod 100) mod 10)) as [D1 D2];
    [Z.div_mod_to_equations; lia|].
  rewrite A1, B1, C1, D1. cbn [andb].
  unfold Z_of_digits. cbn [fold_left]. rewrite A2, B2, C2, D2.
  do 2 f_equal. Z.div_mod_to_equations. lia.
Qed.

(** X17. The date a reply shows reads back as the date it stands for: for
    every date [strptime] produced from a feed, with a year of four
    significant digits, formatting it with ['%d.%m.%Y'] gives ten
    characters that [strptime] parses to the same date. *)
Theorem shown_date_reads_back :
  forall (s : str) (d : datetime),
    strptime_dmY s = Ok d -> 1000 <= year d ->
    strptime_dmY (strftime_dmY d) = Ok d
    /\ List.length (strftime_dmY d) = 10%nat.
Proof.
  intros s d H Hy.
  destruct (strptime_inv s d H) as [Ed [Hd [Hm [Hyr Hv]]]].
  split; [|reflexivity].
  unfold strptime_dmY, strftime_dmY.
  rewrite (directive_d_pad2 (day d)) by exact Hd. cbn [dot app].
  rewrite (directive_m_pad2 (month d)) by exact Hm. cbn [dot app].
  rewrite (directive_Y_pad (year d)) by lia.
  assert (V : ((1 <=? year d) && (day d <=? days_in_month (year d) (month d)))%bool
              = true).
  { apply andb_true_iff. split; apply Z.leb_le; lia. }
  rewrite V. now rewrite <- Ed.
Qed.

Lemma shown_date_reads_back_witness :
  strptime_dmY (U "2.3.2002") = Ok (mkdatetime 2002 3 2 0 0 0 0)
  /\ strftime_dmY (mkdatetime 2002 3 2 0 0 0 0) = U "02.03.2002"
  /\ strptime_dmY (strftime_dmY (mkdatetime 2002 3 2 0 0 0 0))
     = Ok (mkdatetime 2002 3 2 0 0 0 0).
Proof.
  split; [reflexivity|]. split; [reflexivity|].
  apply (shown_date_reads_back (U "2.3.2002") (mkdatetime 2002 3 2 0 0 0 0));
    [reflexivity|cbn; lia].
Defined.

End Dates.
